(** * To-Do List Manager: a shallow embedding of [todo_list.py]

    The development follows the Python source class by class.  Python
    attributes are dynamically typed, and [load_tasks] stores whatever
    value the JSON file holds, so the fields of a task and the next-id
    counter are Python values ([pyval]); the operations raise where the
    Python code raises ([AttributeError] for [.lower()] on a value that is
    not a string, [TypeError] for [+= 1] on a value that is not a number,
    and so on).

    Modelling conventions.
    - A [str] is a Rocq [string]; a character is a code point below 256, and
      [lower], [isspace] are Python's tables on that range.
    - [datetime.now().strftime(...)] is an input of every operation that
      reads the clock (the argument [now]).
    - The [json] module is not part of the repository: a file is modelled
      by what [json.load] makes of it ([Doc v], or [Garbage] when it is
      rejected).  [open(path, 'w')] empties the file; [json.dump data] then
      writes [Doc data], or raises [ValueError] on an integer of more than
      4300 digits, which the interpreter refuses to print, and leaves the
      part written so far, which [json.load] rejects.  Numbers with a
      fraction or an exponent, and values nested deeper than the
      interpreter recurses, which can be neither loaded nor dumped, are
      outside the model.
    - The messages the manager prints are not modelled. *)

From Stdlib Require Import ZArith NArith String Ascii List Sorted Lia.
From stdpp Require Import gmap strings list.
Import ListNotations.

Local Open Scope string_scope.
Local Open Scope Z_scope.

(** ** Python values and exceptions *)

#[warnings="-register-all"]
Inductive pyval : Type :=
| PNone
| PBool (b : bool)
| PInt (n : Z)
| PStr (s : string)
| PList (l : list pyval)
| PDict (items : list (string * pyval)).

Inductive exn : Type :=
| AttributeError
| TypeError
| KeyError
| OSError
| JSONDecodeError
| ValueError.

Inductive outcome (A : Type) : Type :=
| Return (a : A)
| Raise (e : exn).
Arguments Return {A} a.
Arguments Raise {A} e.

Definition outcome_map {A B} (f : A -> B) (o : outcome A) : outcome B :=
  match o with
  | Return a => Return (f a)
  | Raise e => Raise e
  end.

(** ** [str] methods *)

Definition code (c : ascii) : N := N_of_ascii c.

(** [str.isspace] on code points below 256. *)
Definition isspace (c : ascii) : bool :=
  let n := code c in
  ((9 <=? n) && (n <=? 13) || (28 <=? n) && (n <=? 32)
   || (n =? 133) || (n =? 160))%N.

(** Code points below 256 that [str.lower] changes: A-Z and the accented
    capitals U+00C0..U+00DE except the multiplication sign U+00D7. *)
Definition isupper (c : ascii) : bool :=
  let n := code c in
  ((65 <=? n) && (n <=? 90)
   || (192 <=? n) && (n <=? 222) && negb (n =? 215))%N.

Definition lower_char (c : ascii) : ascii :=
  if isupper c then ascii_of_N (code c + 32) else c.

Fixpoint lower (s : string) : string :=
  match s with
  | EmptyString => EmptyString
  | String c r => String (lower_char c) (lower r)
  end.

Fixpoint lstrip (s : string) : string :=
  match s with
  | EmptyString => EmptyString
  | String c r => if isspace c then lstrip r else s
  end.

Fixpoint rstrip (s : string) : string :=
  match s with
  | EmptyString => EmptyString
  | String c r =>
      match rstrip r with
      | EmptyString => if isspace c then EmptyString else String c EmptyString
      | r' => String c r'
      end
  end.

Definition strip (s : string) : string := rstrip (lstrip s).

(** Truth value of a [str]: the empty string is false. *)
Definition truthy (s : string) : bool :=
  match s with
  | EmptyString => false
  | String _ _ => true
  end.

(** ** Operations on Python values used by the source *)

(** [v.lower()] *)
Definition py_lower (v : pyval) : outcome string :=
  match v with
  | PStr s => Return (lower s)
  | _ => Raise AttributeError
  end.

(** [v == s] for a string literal or [str] argument [s] *)
Definition py_eq_str (v : pyval) (s : string) : bool :=
  match v with
  | PStr x => String.eqb x s
  | _ => false
  end.

(** [v == n] for an [int] argument [n] ([True == 1] and [False == 0]) *)
Definition py_eq_int (v : pyval) (n : Z) : bool :=
  match v with
  | PInt k => Z.eqb k n
  | PBool b => Z.eqb (Z.b2z b) n
  | _ => false
  end.

(** [v += 1] *)
Definition py_iadd1 (v : pyval) : outcome pyval :=
  match v with
  | PInt k => Return (PInt (k + 1))
  | PBool b => Return (PInt (Z.b2z b + 1))
  | _ => Raise TypeError
  end.

Fixpoint assoc (key : string) (items : list (string * pyval)) : option pyval :=
  match items with
  | [] => None
  | (k, v) :: rest => if String.eqb k key then Some v else assoc key rest
  end.

(** [v[key]] for a string key *)
Definition py_getitem (v : pyval) (key : string) : outcome pyval :=
  match v with
  | PDict items =>
      match assoc key items with
      | Some x => Return x
      | None => Raise KeyError
      end
  | _ => Raise TypeError
  end.

(** [v.get(key, default)] *)
Definition py_get (v : pyval) (key : string) (default : pyval) : outcome pyval :=
  match v with
  | PDict items =>
      match assoc key items with
      | Some x => Return x
      | None => Return default
      end
  | _ => Raise AttributeError
  end.

Fixpoint chars (s : string) : list pyval :=
  match s with
  | EmptyString => []
  | String c r => PStr (String c EmptyString) :: chars r
  end.

(** The elements [for x in v] runs through *)
Definition py_iter (v : pyval) : outcome (list pyval) :=
  match v with
  | PList l => Return l
  | PDict items => Return (map (fun kv => PStr (fst kv)) items)
  | PStr s => Return (chars s)
  | _ => Raise TypeError
  end.

(** ** class Task *)

Module Task.

Record t : Type := mk {
  id : pyval;
  description : pyval;
  status : pyval;
  priority : pyval;
  category : pyval;
  created_date : pyval;
  completed_date : pyval
}.

(** [Task.__init__]; [now] is the formatted clock reading. *)
Definition init (now : string) (description priority category : pyval) : t :=
  {| id := PNone;
     description := description;
     status := PStr "pending";
     priority := priority;
     category := category;
     created_date := PStr now;
     completed_date := PNone |}.

Definition set_id (v : pyval) (task : t) : t :=
  mk v (description task) (status task) (priority task) (category task)
     (created_date task) (completed_date task).

Definition set_status (v : pyval) (task : t) : t :=
  mk (id task) (description task) v (priority task) (category task)
     (created_date task) (completed_date task).

Definition set_created_date (v : pyval) (task : t) : t :=
  mk (id task) (description task) (status task) (priority task) (category task)
     v (completed_date task).

Definition set_completed_date (v : pyval) (task : t) : t :=
  mk (id task) (description task) (status task) (priority task) (category task)
     (created_date task) v.

(** [Task.mark_completed] *)
Definition mark_completed (now : string) (task : t) : t :=
  set_completed_date (PStr now) (set_status (PStr "completed") task).

(** [Task.to_dict] *)
Definition to_dict (task : t) : pyval :=
  PDict [("id", id task);
         ("description", description task);
         ("status", status task);
         ("priority", priority task);
         ("category", category task);
         ("created_date", created_date task);
         ("completed_date", completed_date task)].

(** [Task.from_dict]: the three constructor arguments are looked up
    first, then the four fields that overwrite the fresh task's. *)
Definition from_dict (now : string) (data : pyval) : outcome t :=
  match py_getitem data "description" with Raise e => Raise e | Return d =>
  match py_getitem data "priority" with Raise e => Raise e | Return p =>
  match py_getitem data "category" with Raise e => Raise e | Return c =>
  let task := init now d p c in
  match py_getitem data "id" with Raise e => Raise e | Return i =>
  let task := set_id i task in
  match py_getitem data "status" with Raise e => Raise e | Return s =>
  let task := set_status s task in
  match py_getitem data "created_date" with Raise e => Raise e | Return cd =>
  let task := set_created_date cd task in
  match py_getitem data "completed_date" with Raise e => Raise e | Return fd =>
  Return (set_completed_date fd task)
  end end end end end end end.

End Task.

(** ** The backing store *)

(** What is at a path: [Unreadable] cannot be opened for reading (a
    directory, a file without permission), [Garbage] is a file that
    [json.load] rejects, [Doc v] a file that [json.load] reads as [v]. *)
Inductive content : Type :=
| Unreadable
| Garbage
| Doc (v : pyval).

(** [locked] holds the paths that cannot be opened for writing. *)
Record filesystem : Type := mkfs {
  files : gmap string content;
  locked : gset string
}.

(** [os.path.exists] *)
Definition path_exists (path : string) (fs : filesystem) : bool :=
  match files fs !! path with
  | Some _ => true
  | None => false
  end.

(** [open(path, 'r')] followed by [json.load] *)
Definition read_json (path : string) (fs : filesystem) : outcome pyval :=
  match files fs !! path with
  | Some (Doc v) => Return v
  | Some Garbage => Raise JSONDecodeError
  | Some Unreadable => Raise OSError
  | None => Raise OSError
  end.

(** The interpreter prints an integer of at most 4300 digits. *)
Definition int_fits (n : Z) : bool := Z.abs n <? 10 ^ 4300.

(** [json.dump] gets through the value: every integer in it can be
    printed. *)
Fixpoint dumpable (v : pyval) : bool :=
  match v with
  | PInt n => int_fits n
  | PList l => forallb dumpable l
  | PDict items => forallb (fun kv => dumpable (snd kv)) items
  | _ => true
  end.

(** [with open(path, 'w') as f: json.dump(data, f)].  When the path cannot
    be opened nothing is touched.  Otherwise the file is emptied first; if
    [json.dump] then raises, what it has written so far stays, an object
    that is not closed. *)
Definition write_json (path : string) (data : pyval) (fs : filesystem)
  : outcome unit * filesystem :=
  if decide (path ∈ locked fs) then (Raise OSError, fs)
  else if dumpable data
  then (Return tt, mkfs (<[path := Doc data]> (files fs)) (locked fs))
  else (Raise ValueError, mkfs (<[path := Garbage]> (files fs)) (locked fs)).

(** ** class TodoListManager *)

Module TodoListManager.

Record t : Type := mk {
  data_file : string;
  tasks : list Task.t;
  next_id : pyval
}.

Definition set_tasks (ts : list Task.t) (self : t) : t :=
  mk (data_file self) ts (next_id self).

Definition set_next_id (v : pyval) (self : t) : t :=
  mk (data_file self) (tasks self) v.

(** A method runs on the object and the file system, returns or raises,
    and leaves both as they are at that point. *)
Definition world : Type := t * filesystem.
Definition M (A : Type) : Type := world -> outcome A * world.

Definition ret {A} (a : A) : M A := fun w => (Return a, w).

Definition bind {A B} (c : M A) (k : A -> M B) : M B :=
  fun w =>
    match c w with
    | (Return a, w') => k a w'
    | (Raise e, w') => (Raise e, w')
    end.

Definition lift {A} (o : outcome A) : M A := fun w => (o, w).

Definition get_self : M t := fun w => (Return (fst w), w).
Definition get_fs : M filesystem := fun w => (Return (snd w), w).
Definition update (f : t -> t) : M unit := fun w => (Return tt, (f (fst w), snd w)).
Definition put_fs (fs : filesystem) : M unit := fun w => (Return tt, (fst w, fs)).

(** [try: body except Exception: handler] *)
Definition try_except {A} (body : M A) (handler : exn -> M A) : M A :=
  fun w =>
    match body w with
    | (Return a, w') => (Return a, w')
    | (Raise e, w') => handler e w'
    end.

#[local] Instance M_ret : MRet M := @ret.
#[local] Instance M_bind : MBind M := fun A B k c => bind c k.

(** A list comprehension whose element expression may raise. *)
Fixpoint comprehension {A B} (f : A -> outcome B) (l : list A) : outcome (list B) :=
  match l with
  | [] => Return []
  | x :: rest =>
      match f x with
      | Raise e => Raise e
      | Return y => outcome_map (cons y) (comprehension f rest)
      end
  end.

(** [write_json] as a step of a method: the file system is replaced also
    when the write raises. *)
Definition writing (path : string) (data : pyval) : M unit :=
  fun w =>
    let '(r, fs') := write_json path data (snd w) in
    (r, (fst w, fs')).

(** The [try] block of [save_tasks] *)
Definition save_tasks_try : M unit :=
  self ← get_self;
  let data := PDict [("next_id", next_id self);
                     ("tasks", PList (map Task.to_dict (tasks self)))] in
  writing (data_file self) data.

(** [save_tasks]: a failure to write is caught and reported, nothing is
    raised and the object is not touched. *)
Definition save_tasks : M unit :=
  try_except save_tasks_try (fun _ => ret tt).

(** The [try] block of [load_tasks] *)
Definition load_tasks_try (now : string) : M unit :=
  self ← get_self;
  fs ← get_fs;
  if path_exists (data_file self) fs then
    data ← lift (read_json (data_file self) fs);
    n ← lift (py_get data "next_id" (PInt 1));
    update (set_next_id n);;
    src ← lift (py_get data "tasks" (PList []));
    elems ← lift (py_iter src);
    ts ← lift (comprehension (Task.from_dict now) elems);
    update (set_tasks ts)
  else ret tt.

(** [load_tasks]: whatever the [try] block raises is caught, and the
    object is reset. *)
Definition load_tasks (now : string) : M unit :=
  try_except (load_tasks_try now)
    (fun _ =>
       update (set_tasks []);;
       update (set_next_id (PInt 1))).

(** [TodoListManager.__init__]: the new object, or the exception the
    constructor lets through, and the file system afterwards. *)
Definition init (now : string) (data_file : string) (fs : filesystem)
  : outcome t * filesystem :=
  let self := mk data_file [] (PInt 1) in
  match load_tasks now (self, fs) with
  | (Return _, (self', fs')) => (Return self', fs')
  | (Raise e, (_, fs')) => (Raise e, fs')
  end.

(** [add_task] *)
Definition add_task (now : string) (description priority category : string)
  : M bool :=
  if negb (truthy (strip description)) then ret false
  else
    let task := Task.init now (PStr (strip description)) (PStr priority)
                  (PStr category) in
    self ← get_self;
    let task := Task.set_id (next_id self) task in
    update (set_tasks (tasks self ++ [task]));;
    n ← lift (py_iadd1 (next_id self));
    update (set_next_id n);;
    save_tasks;;
    ret true.

(** [list_tasks] *)
Definition list_tasks (self : t) : list Task.t := tasks self.

Definition is_pending (task : Task.t) : bool :=
  py_eq_str (Task.status task) "pending".

Definition is_completed (task : Task.t) : bool :=
  py_eq_str (Task.status task) "completed".

(** [list_pending_tasks] *)
Definition list_pending_tasks (self : t) : list Task.t :=
  List.filter is_pending (tasks self).

(** [list_completed_tasks] *)
Definition list_completed_tasks (self : t) : list Task.t :=
  List.filter is_completed (tasks self).

(** [task.description.lower() == d.lower()] *)
Definition same_description (d : string) (task : Task.t) : outcome bool :=
  match py_lower (Task.description task) with
  | Raise e => Raise e
  | Return s => Return (String.eqb s (lower d))
  end.

(** The condition of the loop of [mark_task_completed]:
    [task.description.lower() == d.lower() and task.status == "pending"] *)
Definition is_pending_match (d : string) (task : Task.t) : outcome bool :=
  match same_description d task with
  | Raise e => Raise e
  | Return b => Return (b && is_pending task)
  end.

(** The loop of [mark_task_completed]: the list with the first pending
    task of that description completed, [None] when the loop runs out. *)
Fixpoint complete_first (now d : string) (ts : list Task.t)
  : outcome (option (list Task.t)) :=
  match ts with
  | [] => Return None
  | task :: rest =>
      match is_pending_match d task with
      | Raise e => Raise e
      | Return true => Return (Some (Task.mark_completed now task :: rest))
      | Return false =>
          outcome_map (option_map (cons task)) (complete_first now d rest)
      end
  end.

(** [mark_task_completed] *)
Definition mark_task_completed (now task_description : string) : M bool :=
  self ← get_self;
  found ← lift (complete_first now task_description (tasks self));
  match found with
  | Some ts =>
      update (set_tasks ts);;
      save_tasks;;
      ret true
  | None => ret false
  end.

(** The loop of [mark_task_completed_by_id] *)
Fixpoint complete_first_by_id (now : string) (task_id : Z) (ts : list Task.t)
  : option (list Task.t) :=
  match ts with
  | [] => None
  | task :: rest =>
      if py_eq_int (Task.id task) task_id && is_pending task
      then Some (Task.mark_completed now task :: rest)
      else option_map (cons task) (complete_first_by_id now task_id rest)
  end.

(** [mark_task_completed_by_id] *)
Definition mark_task_completed_by_id (now : string) (task_id : Z) : M bool :=
  self ← get_self;
  match complete_first_by_id now task_id (tasks self) with
  | Some ts =>
      update (set_tasks ts);;
      save_tasks;;
      ret true
  | None => ret false
  end.

(** The loop of [remove_task]: the list without the first task of that
    description, [None] when the loop runs out. *)
Fixpoint pop_first (d : string) (ts : list Task.t)
  : outcome (option (list Task.t)) :=
  match ts with
  | [] => Return None
  | task :: rest =>
      match same_description d task with
      | Raise e => Raise e
      | Return true => Return (Some rest)
      | Return false => outcome_map (option_map (cons task)) (pop_first d rest)
      end
  end.

(** [remove_task] *)
Definition remove_task (task_description : string) : M bool :=
  self ← get_self;
  found ← lift (pop_first task_description (tasks self));
  match found with
  | Some ts =>
      update (set_tasks ts);;
      save_tasks;;
      ret true
  | None => ret false
  end.

(** [clear_all_tasks] *)
Definition clear_all_tasks : M bool :=
  update (set_tasks []);;
  update (set_next_id (PInt 1));;
  save_tasks;;
  ret true.

(** The loop of [get_task_by_description]; [None] is Python's [None]. *)
Fixpoint find_first (d : string) (ts : list Task.t) : outcome (option Task.t) :=
  match ts with
  | [] => Return None
  | task :: rest =>
      match same_description d task with
      | Raise e => Raise e
      | Return true => Return (Some task)
      | Return false => find_first d rest
      end
  end.

(** [get_task_by_description] *)
Definition get_task_by_description (description : string) (self : t)
  : outcome (option Task.t) :=
  find_first description (tasks self).

(** [is_empty] *)
Definition is_empty (self : t) : bool :=
  Nat.eqb (List.length (tasks self)) 0.

(** [any(...)] over a generator whose element expression may raise *)
Fixpoint any {A} (f : A -> outcome bool) (l : list A) : outcome bool :=
  match l with
  | [] => Return false
  | x :: rest =>
      match f x with
      | Raise e => Raise e
      | Return true => Return true
      | Return false => any f rest
      end
  end.

(** [contains_task] *)
Definition contains_task (description : string) (self : t) : outcome bool :=
  any (same_description description) (tasks self).

End TodoListManager.

(** * Vocabulary of the statements *)

Import TodoListManager.

Ltac run_method :=
  unfold mbind, M_bind, bind, mret, M_ret, ret, lift, get_self, get_fs,
    update, put_fs, try_except; cbn [fst snd].

(** The record [save_tasks] hands to [json.dump]. *)
Definition snapshot (self : t) : pyval :=
  PDict [("next_id", next_id self);
         ("tasks", PList (map Task.to_dict (tasks self)))].

(** The file system [save_tasks] leaves behind: untouched when the path
    cannot be opened, the record when [json.dump] gets through it, a
    broken file when it does not. *)
Definition saved (self : t) (fs : filesystem) : filesystem :=
  if decide (data_file self ∈ locked fs) then fs
  else if dumpable (snapshot self)
  then mkfs (<[data_file self := Doc (snapshot self)]> (files fs)) (locked fs)
  else mkfs (<[data_file self := Garbage]> (files fs)) (locked fs).

Definition demo_task : Task.t :=
  Task.mk (PInt 1) (PStr "Buy milk") (PStr "completed") (PStr "high")
    (PStr "home") (PStr "2024-05-01 10:00:00") (PStr "2024-05-02 09:30:00").

Definition demo_manager : t := mk "todo.json" [demo_task] (PInt 2).

Definition empty_fs : filesystem := mkfs ∅ ∅.


Definition other_fs : filesystem :=
  mkfs {["notes.txt" := Garbage]} {["todo.json"]}.

(** The object [__init__] builds before it calls [load_tasks]. *)
Definition fresh (path : string) : t := mk path [] (PInt 1).

(** What makes the file at the path malformed for [load_tasks]: it cannot
    be read, it is not JSON, the document is not an object, the value
    under "tasks" cannot be iterated, or one of its elements is not a
    record [Task.from_dict] accepts. *)
Inductive malformed (now : string) : content -> Prop :=
| malformed_unreadable : malformed now Unreadable
| malformed_garbage : malformed now Garbage
| malformed_not_object (v : pyval) (e : exn) :
    py_get v "next_id" (PInt 1) = Raise e -> malformed now (Doc v)
| malformed_tasks (v src : pyval) (e : exn) :
    py_get v "tasks" (PList []) = Return src ->
    py_iter src = Raise e ->
    malformed now (Doc v)
| malformed_record (v src : pyval) (elems : list pyval) :
    py_get v "tasks" (PList []) = Return src ->
    py_iter src = Return elems ->
    Exists (fun x => exists e, Task.from_dict now x = Raise e) elems ->
    malformed now (Doc v).

(** A file whose only task record lacks the "priority" key. *)
Definition broken_doc : pyval :=
  PDict [("next_id", PInt 7);
         ("tasks", PList [PDict [("id", PInt 6); ("description", PStr "Buy milk")]])].

Definition broken_fs : filesystem := mkfs {["todo.json" := Doc broken_doc]} ∅.

(** A file that parses and whose counter is a string. *)
Definition odd_fs : filesystem :=
  mkfs {["todo.json" := Doc (PDict [("next_id", PStr "seven"); ("tasks", PList [])])]} ∅.

(** The first and the last character of a string. *)
Definition first_char (s : string) : option ascii :=
  match s with
  | EmptyString => None
  | String c _ => Some c
  end.

Fixpoint last_char (s : string) : option ascii :=
  match s with
  | EmptyString => None
  | String c EmptyString => Some c
  | String _ r => last_char r
  end.

(** No white space at either end. *)
Definition trimmed (s : string) : Prop :=
  (forall c, first_char s = Some c -> isspace c = false)
  /\ (forall c, last_char s = Some c -> isspace c = false).

(** Every character of the string is white space. *)
Fixpoint all_space (s : string) : bool :=
  match s with
  | EmptyString => true
  | String c r => isspace c && all_space r
  end.

(** The task [add_task] builds when the counter holds [n]. *)
Definition new_task (now description priority category : string) (n : Z) : Task.t :=
  Task.mk (PInt n) (PStr (strip description)) (PStr "pending") (PStr priority)
    (PStr category) (PStr now) PNone.

(** The manager after a successful [add_task] when the counter holds [n]. *)
Definition added (now description priority category : string) (n : Z) (self : t) : t :=
  mk (data_file self)
     (tasks self ++ [new_task now description priority category n])
     (PInt (n + 1)).

Definition pending_task : Task.t :=
  Task.mk (PInt 1) (PStr "Buy milk") (PStr "pending") (PStr "medium")
    (PStr "general") (PStr "2024-05-01 10:00:00") PNone.

Definition found (r : option Task.t) : bool :=
  match r with
  | Some _ => true
  | None => false
  end.

Definition two_tasks : t :=
  mk "todo.json"
     [Task.mk (PInt 1) (PStr "Buy eggs") (PStr "pending") (PStr "medium")
        (PStr "general") (PStr "2024-05-01 10:00:00") PNone;
      demo_task]
     (PInt 3).

Definition eggs_task : Task.t :=
  Task.mk (PInt 1) (PStr "Buy eggs") (PStr "pending") (PStr "medium")
    (PStr "general") (PStr "2024-05-01 10:00:00") PNone.

Definition milk_task : Task.t :=
  Task.mk (PInt 2) (PStr "Buy milk") (PStr "pending") (PStr "high")
    (PStr "home") (PStr "2024-05-01 10:05:00") PNone.

Definition shopping : t := mk "todo.json" [eggs_task; milk_task] (PInt 3).

(** Two pending tasks of one description, as two [add_task] calls on a
    new manager leave them. *)
Definition twice_milk : world :=
  snd (add_task "2024-05-01 10:01:00" "Buy milk" "medium" "general"
         (snd (add_task "2024-05-01 10:00:00" "Buy milk" "medium" "general"
                 (fresh "todo.json", empty_fs)))).

(** Every id in the list is an integer below [n]. *)
Definition ids_below (n : Z) (ts : list Task.t) : Prop :=
  Forall (fun x => exists k, Task.id x = PInt k /\ k < n) ts.

(** The counter is an integer and lies above every id in the list: the
    state of a new manager, kept by every operation. *)
Definition consistent (self : t) : Prop :=
  exists n, next_id self = PInt n /\ ids_below n (tasks self).

(** *** Sequences of operations *)

(** A call of one of the public operations of the manager. *)
Inductive op : Type :=
| AddTask (now description priority category : string)
| ListTasks
| ListPendingTasks
| ListCompletedTasks
| MarkTaskCompleted (now task_description : string)
| MarkTaskCompletedById (now : string) (task_id : Z)
| RemoveTask (task_description : string)
| ClearAllTasks
| GetTaskByDescription (description : string)
| IsEmpty
| ContainsTask (description : string).

(** What a call returns. *)
Inductive result : Type :=
| RBool (b : bool)
| RTasks (ts : list Task.t)
| RTask (r : option Task.t).

Definition returning {A} (f : A -> result) (c : M A) : M result :=
  fun w => (outcome_map f (fst (c w)), snd (c w)).

Definition query {A} (f : t -> A) : M A := fun w => (Return (f (fst w)), w).

Definition query_raising {A} (f : t -> outcome A) : M A := fun w => (f (fst w), w).

Definition step (o : op) : M result :=
  match o with
  | AddTask now d p c => returning RBool (add_task now d p c)
  | ListTasks => returning RTasks (query list_tasks)
  | ListPendingTasks => returning RTasks (query list_pending_tasks)
  | ListCompletedTasks => returning RTasks (query list_completed_tasks)
  | MarkTaskCompleted now d => returning RBool (mark_task_completed now d)
  | MarkTaskCompletedById now i => returning RBool (mark_task_completed_by_id now i)
  | RemoveTask d => returning RBool (remove_task d)
  | ClearAllTasks => returning RBool clear_all_tasks
  | GetTaskByDescription d => returning RTask (query_raising (get_task_by_description d))
  | IsEmpty => returning RBool (query is_empty)
  | ContainsTask d => returning RBool (query_raising (contains_task d))
  end.

(** One entry per call: the call, what it returned or raised, and the
    manager and file system it left.  A caller that catches an exception
    goes on with the next call. *)
Definition event : Type := op * outcome result * world.

Fixpoint run (ops : list op) (w : world) : list event :=
  match ops with
  | [] => []
  | o :: rest =>
      let '(r, w') := step o w in
      (o, r, w') :: run rest w'
  end.

(** The id given out by a call: that of the task at the end of the list
    after an [add_task] that returned [True]. *)
Definition assigned (ev : event) : option pyval :=
  match ev with
  | (AddTask _ _ _ _, Return (RBool true), (self, _)) =>
      match last (tasks self) with
      | Some task => Some (Task.id task)
      | None => None
      end
  | _ => None
  end.

Definition assigned_ids (trace : list event) : list pyval := omap assigned trace.

(** The value of the counter after each call. *)
Definition counters (trace : list event) : list pyval :=
  map (fun ev : event => next_id (fst (snd ev))) trace.

Definition is_clear (o : op) : bool :=
  match o with
  | ClearAllTasks => true
  | _ => false
  end.

Definition session : list op :=
  [AddTask "2024-05-01 10:00:00" "Buy milk" "medium" "general";
   AddTask "2024-05-01 10:01:00" "Buy eggs" "medium" "general";
   ClearAllTasks;
   AddTask "2024-05-01 10:02:00" "Buy bread" "medium" "general"].

Definition session_without_clear : list op :=
  [AddTask "2024-05-01 10:00:00" "Buy milk" "medium" "general";
   RemoveTask "buy milk";
   AddTask "2024-05-01 10:01:00" "   " "medium" "general";
   MarkTaskCompleted "2024-05-01 10:01:30" "Buy eggs";
   AddTask "2024-05-01 10:02:00" "Buy bread" "medium" "general"].

(** * Vocabulary of the further properties *)

(** The keys [Task.from_dict] reads. *)
Definition task_keys : list string :=
  ["description"; "priority"; "category"; "id"; "status"; "created_date";
   "completed_date"].

(** The dictionary holds the fields of the task under the seven keys. *)
Definition holds_fields (items : list (string * pyval)) (task : Task.t) : Prop :=
  assoc "id" items = Some (Task.id task)
  /\ assoc "description" items = Some (Task.description task)
  /\ assoc "status" items = Some (Task.status task)
  /\ assoc "priority" items = Some (Task.priority task)
  /\ assoc "category" items = Some (Task.category task)
  /\ assoc "created_date" items = Some (Task.created_date task)
  /\ assoc "completed_date" items = Some (Task.completed_date task).


(** A record with a key more than [to_dict] writes, and a file without
    the "next_id" key. *)
Definition record_with_note : pyval :=
  PDict [("note", PStr "from the old format");
         ("id", PInt 4);
         ("description", PStr "Buy milk");
         ("status", PStr "pending");
         ("priority", PStr "urgent");
         ("category", PStr "home");
         ("created_date", PStr "2024-05-01 10:00:00");
         ("completed_date", PNone)].

Definition task_with_note : Task.t :=
  Task.mk (PInt 4) (PStr "Buy milk") (PStr "pending") (PStr "urgent")
    (PStr "home") (PStr "2024-05-01 10:00:00") PNone.





(** The counter is an integer. *)
Definition counting (self : t) : Prop := exists n, next_id self = PInt n.

(** The list after [self.tasks.append(task)] in [add_task]. *)
Definition appended (now description priority category : string) (self : t) : t :=
  set_tasks
    (tasks self
     ++ [Task.set_id (next_id self)
           (Task.init now (PStr (strip description)) (PStr priority) (PStr category))])
    self.


(** Two ids are integers, the first below the second. *)
Definition py_lt (a b : pyval) : Prop :=
  exists i j, a = PInt i /\ b = PInt j /\ i < j.

(** The ids go up along the list. *)
Definition ascending (ts : list Task.t) : Prop :=
  StronglySorted py_lt (map Task.id ts).

(** The shape of a task that [add_task] has built and [mark_completed] may
    have completed. *)
Definition api_task (task : Task.t) : Prop :=
  (exists s, Task.description task = PStr s /\ s <> "" /\ strip s = s)
  /\ ((Task.status task = PStr "pending" /\ Task.completed_date task = PNone)
      \/ (Task.status task = PStr "completed"
          /\ exists s, Task.completed_date task = PStr s))
  /\ (exists s, Task.priority task = PStr s)
  /\ (exists s, Task.category task = PStr s)
  /\ (exists s, Task.created_date task = PStr s).

(** The state of a manager that was new once and has been used through
    its operations only. *)
Definition sound (self : t) : Prop :=
  exists n,
    next_id self = PInt n
    /\ 1 <= n
    /\ Forall (fun x => exists k, Task.id x = PInt k /\ 1 <= k < n) (tasks self)
    /\ ascending (tasks self)
    /\ Forall api_task (tasks self).

Definition long_session : list op :=
  [AddTask "2024-05-01 10:00:00" "Buy milk" "medium" "general";
   AddTask "2024-05-01 10:01:00" " buy MILK" "high" "home";
   MarkTaskCompleted "2024-05-01 10:02:00" "BUY MILK";
   ContainsTask "buy milk";
   RemoveTask "Buy Milk";
   MarkTaskCompletedById "2024-05-01 10:03:00" 2;
   ClearAllTasks;
   AddTask "2024-05-01 10:04:00" "Buy bread" "low" "food";
   GetTaskByDescription "buy bread";
   ListPendingTasks].

(** * The console program *)

(** What [main] prints is recorded as one tag per [print], with the data
    the text is built from; a [display_tasks] or [display_menu] call is
    one tag, and the prompts of [input] are left out. *)
Inductive message : Type :=
| Welcome
| Menu
| NothingFound (title : string)
| Displayed (ts : list Task.t) (title : string)
| EmptyDescription
| TaskAdded (description : string)
| FailedToAdd
| NoTasksAvailable
| MarkedCompleted (description : string)
| MarkedCompletedById (task_id : Z)
| NotFoundOrCompleted
| InvalidTaskId
| Removed (description : string)
| TaskNotFound
| AlreadyEmpty
| Cleared
| Cancelled
| Goodbye
| InvalidChoice.

(** How [main] ends: the loop is left by [break], an exception of the
    manager or of [display_tasks] gets out, or [input] finds no line
    ([EOFError]). *)
Inductive ending : Type :=
| Left
| Died (e : exn)
| EndOfInput.

(** One row of [display_tasks]: the priority is looked up in the table of
    symbols, which raises on a list or a dictionary, and its [title()] is
    taken, which raises on what is not a string. *)
Definition display_row (task : Task.t) : outcome unit :=
  match Task.priority task with
  | PStr _ => Return tt
  | PList _ => Raise TypeError
  | PDict _ => Raise TypeError
  | _ => Raise AttributeError
  end.

Fixpoint display_rows (ts : list Task.t) : outcome unit :=
  match ts with
  | [] => Return tt
  | task :: rest =>
      match display_row task with
      | Raise e => Raise e
      | Return _ => display_rows rest
      end
  end.

(** [display_tasks] *)
Definition display_tasks (ts : list Task.t) (title : string) : outcome message :=
  match ts with
  | [] => Return (NothingFound (lower title))
  | _ :: _ =>
      match display_rows ts with
      | Raise e => Raise e
      | Return _ => Return (Displayed ts title)
      end
  end.

(** [priority not in ['low', 'medium', 'high']] *)
Definition known_priority (priority : string) : bool :=
  String.eqb priority "low" || String.eqb priority "medium"
  || String.eqb priority "high".

Definition outputs : Type := list message * world * ending.

Definition emit (ms : list message) (r : outputs) : outputs :=
  let '(out, w, e) := r in ((ms ++ out)%list, w, e).

Section Main.

(** [int(s)]: [None] when it raises [ValueError]. *)
Variable parse_int : string -> option Z.

(** What the clock reads during each turn of the loop; turn 0 is the
    construction of the manager. *)
Variable clock : nat -> string.

(** The [while True] loop of [main] on the lines that [input] will
    return.  Each turn prints the menu and reads the choice. *)
Fixpoint menu_loop (inputs : list string) (turn : nat) (w : world) : outputs :=
  match inputs with
  | [] => ([Menu], w, EndOfInput)
  | line :: rest =>
      let choice := strip line in
      if String.eqb choice "1" then
        match rest with
        | [] => ([Menu], w, EndOfInput)
        | line1 :: rest1 =>
            let description := strip line1 in
            if negb (truthy description)
            then emit [Menu; EmptyDescription] (menu_loop rest1 (S turn) w)
            else
              match rest1 with
              | [] => ([Menu], w, EndOfInput)
              | line2 :: rest2 =>
                  let priority := lower (strip line2) in
                  let priority :=
                    if negb (known_priority priority) then "medium" else priority in
                  match rest2 with
                  | [] => ([Menu], w, EndOfInput)
                  | line3 :: rest3 =>
                      let category := strip line3 in
                      let category :=
                        if negb (truthy category) then "general" else category in
                      match add_task (clock turn) description priority category w with
                      | (Raise e, w') => ([Menu], w', Died e)
                      | (Return true, w') =>
                          emit [Menu; TaskAdded description]
                            (menu_loop rest3 (S turn) w')
                      | (Return false, w') =>
                          emit [Menu; FailedToAdd] (menu_loop rest3 (S turn) w')
                      end
                  end
              end
        end
      else if String.eqb choice "2" then
        match display_tasks (list_tasks (fst w)) "All Tasks" with
        | Raise e => ([Menu], w, Died e)
        | Return m => emit [Menu; m] (menu_loop rest (S turn) w)
        end
      else if String.eqb choice "3" then
        match display_tasks (list_pending_tasks (fst w)) "Pending Tasks" with
        | Raise e => ([Menu], w, Died e)
        | Return m => emit [Menu; m] (menu_loop rest (S turn) w)
        end
      else if String.eqb choice "4" then
        match display_tasks (list_completed_tasks (fst w)) "Completed Tasks" with
        | Raise e => ([Menu], w, Died e)
        | Return m => emit [Menu; m] (menu_loop rest (S turn) w)
        end
      else if String.eqb choice "5" then
        if is_empty (fst w)
        then emit [Menu; NoTasksAvailable] (menu_loop rest (S turn) w)
        else
          match display_tasks (list_pending_tasks (fst w)) "Pending Tasks" with
          | Raise e => ([Menu], w, Died e)
          | Return m =>
              match rest with
              | [] => ([Menu; m], w, EndOfInput)
              | line1 :: rest1 =>
                  let choice_type := strip line1 in
                  match rest1 with
                  | [] => ([Menu; m], w, EndOfInput)
                  | line2 :: rest2 =>
                      if String.eqb choice_type "2" then
                        let description := strip line2 in
                        match mark_task_completed (clock turn) description w with
                        | (Raise e, w') => ([Menu; m], w', Died e)
                        | (Return true, w') =>
                            emit [Menu; m; MarkedCompleted description]
                              (menu_loop rest2 (S turn) w')
                        | (Return false, w') =>
                            emit [Menu; m; NotFoundOrCompleted]
                              (menu_loop rest2 (S turn) w')
                        end
                      else
                        match parse_int line2 with
                        | None =>
                            emit [Menu; m; InvalidTaskId] (menu_loop rest2 (S turn) w)
                        | Some task_id =>
                            match mark_task_completed_by_id (clock turn) task_id w with
                            | (Raise e, w') => ([Menu; m], w', Died e)
                            | (Return true, w') =>
                                emit [Menu; m; MarkedCompletedById task_id]
                                  (menu_loop rest2 (S turn) w')
                            | (Return false, w') =>
                                emit [Menu; m; NotFoundOrCompleted]
                                  (menu_loop rest2 (S turn) w')
                            end
                        end
                  end
              end
          end
      else if String.eqb choice "6" then
        if is_empty (fst w)
        then emit [Menu; NoTasksAvailable] (menu_loop rest (S turn) w)
        else
          match display_tasks (list_tasks (fst w)) "All Tasks" with
          | Raise e => ([Menu], w, Died e)
          | Return m =>
              match rest with
              | [] => ([Menu; m], w, EndOfInput)
              | line1 :: rest1 =>
                  let description := strip line1 in
                  match remove_task description w with
                  | (Raise e, w') => ([Menu; m], w', Died e)
                  | (Return true, w') =>
                      emit [Menu; m; Removed description] (menu_loop rest1 (S turn) w')
                  | (Return false, w') =>
                      emit [Menu; m; TaskNotFound] (menu_loop rest1 (S turn) w')
                  end
              end
          end
      else if String.eqb choice "7" then
        if is_empty (fst w)
        then emit [Menu; AlreadyEmpty] (menu_loop rest (S turn) w)
        else
          match rest with
          | [] => ([Menu], w, EndOfInput)
          | line1 :: rest1 =>
              let confirm := lower (strip line1) in
              if String.eqb confirm "y" then
                match clear_all_tasks w with
                | (Raise e, w') => ([Menu], w', Died e)
                | (Return _, w') => emit [Menu; Cleared] (menu_loop rest1 (S turn) w')
                end
              else emit [Menu; Cancelled] (menu_loop rest1 (S turn) w)
          end
      else if String.eqb choice "8" then ([Menu; Goodbye], w, Left)
      else emit [Menu; InvalidChoice] (menu_loop rest (S turn) w)
  end.

(** [main]: the manager is constructed on "todo_data.json". *)
Definition main (inputs : list string) (fs : filesystem) : outputs :=
  match init (clock 0) "todo_data.json" fs with
  | (Raise e, fs') => ([], (fresh "todo_data.json", fs'), Died e)
  | (Return self, fs') => emit [Welcome] (menu_loop inputs 1 (self, fs'))
  end.

End Main.

(** The calls [main] makes: an [add_task] gets a description that is
    trimmed and not empty, a priority out of the three, and a category
    that is not empty. *)
Definition menu_call (o : op) : Prop :=
  match o with
  | AddTask _ d p c =>
      d <> "" /\ strip d = d /\ known_priority p = true /\ c <> ""
  | _ => True
  end.

(** What [main] says about an added task is said of a trimmed, non-empty
    description. *)
Definition fair_message (m : message) : Prop :=
  match m with
  | TaskAdded d => d <> "" /\ strip d = d
  | FailedToAdd => False
  | _ => True
  end.

(** The outcome of the loop keeps [I], prints fair messages only, and, if
    [I] makes the manager sound, does not end on an exception. *)
Definition good (I : world -> Prop) (r : outputs) : Prop :=
  I (snd (fst r))
  /\ Forall fair_message (fst (fst r))
  /\ ((forall w, I w -> sound (fst w)) -> forall e, snd r <> Died e).

(** A reading of decimal digits, enough to run the program on examples. *)
Definition digit_of (c : ascii) : option Z :=
  let n := N_of_ascii c in
  if ((48 <=? n) && (n <=? 57))%N then Some (Z.of_N (n - 48)) else None.

Fixpoint digits_value (acc : Z) (s : string) : option Z :=
  match s with
  | EmptyString => Some acc
  | String c r =>
      match digit_of c with
      | Some d => digits_value (10 * acc + d) r
      | None => None
      end
  end.

Definition plain_int (s : string) : option Z :=
  match strip s with
  | EmptyString => None
  | t => digits_value 0 t
  end.

Definition noon (turn : nat) : string := "2024-05-01 12:00:00".

Definition typed_lines : list string :=
  ["1"; "  Buy milk "; "URGENT"; "";
   "1"; "   ";
   "5"; "1"; "one";
   "5"; "2"; "buy MILK";
   "9";
   "2";
   "8"; "1"].

(** A task as the menu adds it: a priority out of the three and a
    category that is a non-empty string. *)
Definition menu_task (task : Task.t) : Prop :=
  (Task.priority task = PStr "low" \/ Task.priority task = PStr "medium"
   \/ Task.priority task = PStr "high")
  /\ exists c, Task.category task = PStr c /\ c <> "".


(** * The step definitions of the scenarios *)

(** The loop of the step "the to-do list contains tasks" over the rows of
    the table, a row being its "Task" cell and its "Status" cell
    ("Pending" when the column is absent): the task is added with the
    default priority and category, and completed by description when the
    status, lower-cased, is "completed".  What the calls return is not
    looked at; [clock k] and [clock (S k)] are what the clock reads in the
    two calls of a row. *)
Fixpoint add_rows (clock : nat -> string) (k : nat) (rows : list (string * string))
  : M unit :=
  match rows with
  | [] => ret tt
  | (task_description, status) :: rest =>
      bind (add_task (clock k) task_description "medium" "general") (fun _ =>
      bind (if String.eqb (lower status) "completed"
            then bind (mark_task_completed (clock (S k)) task_description)
                   (fun _ => ret tt)
            else ret tt) (fun _ =>
      add_rows clock (S (S k)) rest))
  end.

(** The step "the to-do list contains tasks" *)
Definition given_contains_tasks (clock : nat -> string)
    (rows : list (string * string)) : M unit :=
  bind clear_all_tasks (fun _ => add_rows clock 0 rows).

(** The task a row stands for when it is the row number [i] (from 0) and
    the clock has been read [k] times before it. *)
Definition row_task (clock : nat -> string) (k : nat) (i : Z)
    (row : string * string) : Task.t :=
  let task := new_task (clock k) (fst row) "medium" "general" (i + 1) in
  if String.eqb (lower (snd row)) "completed"
  then Task.mark_completed (clock (S k)) task
  else task.

Fixpoint row_tasks (clock : nat -> string) (k : nat) (i : Z)
    (rows : list (string * string)) : list Task.t :=
  match rows with
  | [] => []
  | row :: rest => row_task clock k i row :: row_tasks clock (S (S k)) (i + 1) rest
  end.

Definition table : list (string * string) :=
  [("Buy milk", "Pending"); ("Pay bills", "Completed"); ("Call mom", "pending")].

(** * Properties *)

(** ** The model on small inputs *)

Example strip_both_ends : strip "  Buy milk " = "Buy milk".
Proof. reflexivity. Qed.

Example strip_keeps_inner_space : strip "Buy  milk" = "Buy  milk".
Proof. reflexivity. Qed.

Example lower_mixed_case : lower "Buy MILK" = "buy milk".
Proof. reflexivity. Qed.

Example from_dict_missing_key :
  Task.from_dict "2024-06-01 08:00:00"
    (PDict [("id", PInt 6); ("description", PStr "Buy milk")])
  = Raise KeyError.
Proof. reflexivity. Qed.

Example from_dict_of_string :
  Task.from_dict "2024-06-01 08:00:00" (PStr "x") = Raise TypeError.
Proof. reflexivity. Qed.

(** A document whose values have unexpected types is not rejected: the
    values are stored as they are. *)
Example construct_on_odd_counter :
  fst (init "2024-06-01 08:00:00" "todo.json" odd_fs)
  = Return (mk "todo.json" [] (PStr "seven")).
Proof. reflexivity. Qed.

(** With such a counter [add_task] raises after it has appended the task. *)
Example add_task_on_odd_counter :
  let self := mk "todo.json" [] (PStr "seven") in
  add_task "2024-06-01 08:00:00" "Buy milk" "medium" "general" (self, odd_fs)
  = (Raise TypeError,
     (mk "todo.json"
         [Task.mk (PStr "seven") (PStr "Buy milk") (PStr "pending") (PStr "medium")
            (PStr "general") (PStr "2024-06-01 08:00:00") PNone]
         (PStr "seven"),
      odd_fs)).
Proof. reflexivity. Qed.

(** ** Saving *)

Lemma save_tasks_eq (self : t) (fs : filesystem) :
  save_tasks (self, fs) = (Return tt, (self, saved self fs)).
Proof.
  unfold save_tasks, save_tasks_try, writing, saved, write_json, snapshot.
  run_method.
  destruct (decide (data_file self ∈ locked fs)); [reflexivity|].
  destruct (dumpable _); reflexivity.
Qed.



(** ** Serialisation of a task *)







(** ** Loading *)

Lemma comprehension_raises {A B} (f : A -> outcome B) (l : list A) :
  Exists (fun x => exists e, f x = Raise e) l ->
  exists e, comprehension f l = Raise e.
Proof.
  induction 1 as [x l [e He]|x l _ [e IH]]; cbn.
  - rewrite He. eauto.
  - destruct (f x); [rewrite IH|]; cbn; eauto.
Qed.

Lemma comprehension_returns {A B} (f : A -> outcome B) (l : list A) :
  Forall (fun x => exists y, f x = Return y) l ->
  exists ys, comprehension f l = Return ys.
Proof.
  induction 1 as [|x l [y Hy] _ [ys IH]]; cbn; [eauto|].
  rewrite Hy, IH. cbn. eauto.
Qed.

Lemma py_get_total_on_dict (v : pyval) (k1 k2 : string) (d1 d2 x : pyval) :
  py_get v k1 d1 = Return x -> exists y, py_get v k2 d2 = Return y.
Proof.
  destruct v; cbn; try discriminate. intros _.
  destruct (assoc k2 items); eauto.
Qed.

Lemma load_tasks_try_malformed (now : string) (self : t) (fs : filesystem) (c : content) :
  files fs !! data_file self = Some c ->
  malformed now c ->
  exists e self',
    load_tasks_try now (self, fs) = (Raise e, (self', fs))
    /\ data_file self' = data_file self.
Proof.
  intros Hfile Hbad. unfold load_tasks_try, path_exists, read_json. run_method.
  rewrite Hfile.
  destruct Hbad as [| |v e Hget|v src e Hsrc Hiter|v src elems Hsrc Hiter Hex].
  - eauto.
  - eauto.
  - rewrite Hget. eauto.
  - destruct (py_get_total_on_dict v "tasks" "next_id" (PList []) (PInt 1) src Hsrc)
      as [n Hn].
    rewrite Hn. cbn. rewrite Hsrc, Hiter. eauto.
  - destruct (py_get_total_on_dict v "tasks" "next_id" (PList []) (PInt 1) src Hsrc)
      as [n Hn].
    destruct (comprehension_raises _ _ Hex) as [e He].
    rewrite Hn. cbn. rewrite Hsrc, Hiter, He. eauto.
Qed.


(** C8. Constructing a [TodoListManager] on a path where there is no
    file, or where the file is malformed (unreadable, not JSON, or not a
    document whose task records deserialise), returns a manager with an
    empty task list and next-id counter 1; nothing is raised and the file
    system is left as it was. *)
Theorem construct_on_missing_or_malformed (now path : string) (fs : filesystem) :
  files fs !! path = None
  \/ (exists c, files fs !! path = Some c /\ malformed now c) ->
  init now path fs = (Return (fresh path), fs)
  /\ tasks (fresh path) = []
  /\ next_id (fresh path) = PInt 1.
Proof.
  intros Hcase. split; [|split; reflexivity].
  unfold init, load_tasks. destruct Hcase as [Hnone|[c [Hfile Hbad]]].
  - unfold try_except, load_tasks_try, path_exists. run_method.
    cbn [data_file]. rewrite Hnone. reflexivity.
  - destruct (load_tasks_try_malformed now (mk path [] (PInt 1)) fs c Hfile Hbad)
      as [e [self' [Hraise Hpath]]].
    unfold try_except at 1. rewrite Hraise. destruct self'; cbn in Hpath.
    subst. reflexivity.
Qed.

Lemma construct_on_missing_or_malformed_witness :
  (files broken_fs !! "todo.json" = None
   \/ (exists c, files broken_fs !! "todo.json" = Some c /\ malformed "2024-06-01 08:00:00" c))
  /\ init "2024-06-01 08:00:00" "todo.json" broken_fs = (Return (fresh "todo.json"), broken_fs)
  /\ tasks (fresh "todo.json") = []
  /\ next_id (fresh "todo.json") = PInt 1.
Proof.
  assert (Hbad : files broken_fs !! "todo.json" = None
     \/ (exists c, files broken_fs !! "todo.json" = Some c
                   /\ malformed "2024-06-01 08:00:00" c)).
  { right. exists (Doc broken_doc). split; [reflexivity|].
    apply (malformed_record _ broken_doc
             (PList [PDict [("id", PInt 6); ("description", PStr "Buy milk")]])
             [PDict [("id", PInt 6); ("description", PStr "Buy milk")]]);
      [reflexivity|reflexivity|].
    apply Exists_cons_hd. exists KeyError. reflexivity. }
  split; [exact Hbad|].
  exact (construct_on_missing_or_malformed "2024-06-01 08:00:00" "todo.json" broken_fs Hbad).
Defined.

(** ** Trimming *)

Lemma lstrip_first (s : string) (c : ascii) :
  first_char (lstrip s) = Some c -> isspace c = false.
Proof.
  induction s as [|a s IH]; cbn; [discriminate|].
  destruct (isspace a) eqn:Ha; [exact IH|].
  cbn. intros H. injection H as <-. exact Ha.
Qed.

Lemma rstrip_last (s : string) (c : ascii) :
  last_char (rstrip s) = Some c -> isspace c = false.
Proof.
  induction s as [|a s IH]; cbn; [discriminate|].
  destruct (rstrip s) as [|b q] eqn:Hq.
  - destruct (isspace a) eqn:Ha; cbn; [discriminate|].
    intros H. injection H as <-. exact Ha.
  - cbn. cbn in IH. exact IH.
Qed.

Lemma rstrip_first (a : ascii) (s : string) :
  isspace a = false -> first_char (rstrip (String a s)) = Some a.
Proof.
  intros Ha. cbn. destruct (rstrip s); [rewrite Ha|]; reflexivity.
Qed.

Lemma rstrip_cons (a b : ascii) (s q : string) :
  rstrip s = String b q -> rstrip (String a s) = String a (String b q).
Proof. intros H. cbn. rewrite H. reflexivity. Qed.

Lemma rstrip_idempotent (s : string) : rstrip (rstrip s) = rstrip s.
Proof.
  induction s as [|a s IH]; [reflexivity|].
  destruct (rstrip s) as [|b q] eqn:Hq.
  - cbn. rewrite Hq. destruct (isspace a) eqn:Ha; cbn; [reflexivity|].
    rewrite Ha. reflexivity.
  - rewrite (rstrip_cons a b s q Hq). apply rstrip_cons. exact IH.
Qed.

Lemma lstrip_fixed (s : string) :
  (forall c, first_char s = Some c -> isspace c = false) -> lstrip s = s.
Proof.
  destruct s as [|a s]; cbn; [reflexivity|].
  intros H. rewrite (H a eq_refl). reflexivity.
Qed.

Lemma strip_first (s : string) (c : ascii) :
  first_char (strip s) = Some c -> isspace c = false.
Proof.
  unfold strip. destruct (lstrip s) as [|a q] eqn:Hq; [discriminate|].
  assert (Ha : isspace a = false) by (apply (lstrip_first s); rewrite Hq; reflexivity).
  rewrite (rstrip_first a q Ha). intros H. injection H as <-. exact Ha.
Qed.

Lemma strip_idempotent (s : string) : strip (strip s) = strip s.
Proof.
  unfold strip at 1. rewrite lstrip_fixed by apply strip_first.
  unfold strip. apply rstrip_idempotent.
Qed.

Lemma strip_trimmed (s : string) : trimmed (strip s).
Proof.
  split; [apply strip_first|]. unfold strip. apply rstrip_last.
Qed.

Lemma lstrip_split (s : string) :
  exists lead, s = String.append lead (lstrip s) /\ all_space lead = true.
Proof.
  induction s as [|a s [lead [Hs Hlead]]]; [exists ""; split; reflexivity|].
  cbn [lstrip]. destruct (isspace a) eqn:Ha.
  - exists (String a lead). split.
    + rewrite Hs at 1. reflexivity.
    + cbn [all_space]. rewrite Ha. exact Hlead.
  - exists "". split; reflexivity.
Qed.

Lemma rstrip_split (s : string) :
  exists trail, s = String.append (rstrip s) trail /\ all_space trail = true.
Proof.
  induction s as [|a s [trail [Hs Htrail]]]; [exists ""; split; reflexivity|].
  cbn [rstrip]. destruct (rstrip s) as [|b q] eqn:Hq.
  - change (s = trail) in Hs. subst s. destruct (isspace a) eqn:Ha.
    + exists (String a trail). split; [reflexivity|].
      cbn [all_space]. rewrite Ha. exact Htrail.
    + exists trail. split; [reflexivity|exact Htrail].
  - exists trail. split; [|exact Htrail].
    rewrite Hs at 1. reflexivity.
Qed.

(** [strip] takes white space off both ends and nothing else. *)
Lemma strip_split (s : string) :
  exists lead trail,
    s = String.append lead (String.append (strip s) trail)
    /\ all_space lead = true /\ all_space trail = true.
Proof.
  destruct (lstrip_split s) as [lead [Hs Hlead]].
  destruct (rstrip_split (lstrip s)) as [trail [Hl Htrail]].
  exists lead, trail. unfold strip. rewrite <- Hl. auto.
Qed.

(** ** Adding a task *)

Lemma truthy_false (s : string) : truthy s = false <-> s = "".
Proof. destruct s; cbn; split; congruence. Qed.

Lemma add_task_blank (now description priority category : string) (w : world) :
  strip description = "" ->
  add_task now description priority category w = (Return false, w).
Proof.
  intros Hblank. unfold add_task. rewrite Hblank. reflexivity.
Qed.

Lemma add_task_eq (now description priority category : string)
    (self : t) (fs : filesystem) (n : Z) :
  strip description <> "" ->
  next_id self = PInt n ->
  add_task now description priority category (self, fs)
  = (Return true,
     (added now description priority category n self,
      saved (added now description priority category n self) fs)).
Proof.
  intros Hd Hn. unfold add_task.
  destruct (truthy (strip description)) eqn:Ht.
  - cbn [negb]. run_method. rewrite Hn. cbn [py_iadd1].
    rewrite save_tasks_eq. reflexivity.
  - apply truthy_false in Ht. contradiction.
Qed.

(** C3. When the description is not empty after trimming (and the counter
    holds an integer [n]), [add_task] returns [True]; the new task carries
    the trimmed description, which is the description without the white
    space at its two ends, and the id [n]; it is appended at the end of
    the sequence, the counter becomes [n + 1], and the state is saved.  In
    particular, on an empty manager, [add_task("Buy milk")] then
    [add_task("Buy eggs")] make [list_tasks] return these two tasks in
    this order with ids 1 and 2. *)
Theorem add_task_appends (now description priority category : string)
    (self : t) (fs : filesystem) (n : Z) :
  strip description <> "" ->
  next_id self = PInt n ->
  let task := new_task now description priority category n in
  let self' := added now description priority category n self in
  add_task now description priority category (self, fs)
  = (Return true, (self', saved self' fs))
  /\ Task.description task = PStr (strip description)
  /\ trimmed (strip description)
  /\ (exists lead trail,
        description = String.append lead (String.append (strip description) trail)
        /\ all_space lead = true /\ all_space trail = true)
  /\ Task.id task = next_id self
  /\ last (tasks self') = Some task
  /\ list_tasks self' = (list_tasks self ++ [task])%list
  /\ next_id self' = PInt (n + 1)
  /\ (forall (now1 now2 path : string) (fs0 : filesystem),
        let w1 := snd (add_task now1 "Buy milk" "medium" "general" (fresh path, fs0)) in
        let w2 := snd (add_task now2 "Buy eggs" "medium" "general" w1) in
        map (fun x => (Task.id x, Task.description x)) (list_tasks (fst w2))
        = [(PInt 1, PStr "Buy milk"); (PInt 2, PStr "Buy eggs")]).
Proof.
  intros Hd Hn task self'.
  split; [apply add_task_eq; assumption|]. split; [reflexivity|].
  split; [apply strip_trimmed|]. split; [apply strip_split|].
  split; [symmetry; exact Hn|]. split; [apply last_snoc|].
  split; [reflexivity|]. split; [reflexivity|].
  - intros now1 now2 path fs0 w1 w2. subst w1 w2.
    rewrite (add_task_eq now1 "Buy milk" "medium" "general" (fresh path) fs0 1)
      by (reflexivity || discriminate).
    cbn [snd].
    rewrite (add_task_eq now2 "Buy eggs" "medium" "general" _ _ 2)
      by (reflexivity || discriminate).
    reflexivity.
Qed.

Lemma add_task_appends_witness :
  strip "  Call the bank " <> ""
  /\ next_id demo_manager = PInt 2
  /\ add_task "2024-06-01 08:00:00" "  Call the bank " "low" "money"
       (demo_manager, empty_fs)
     = (Return true,
        (mk "todo.json"
            [demo_task;
             Task.mk (PInt 2) (PStr "Call the bank") (PStr "pending") (PStr "low")
               (PStr "money") (PStr "2024-06-01 08:00:00") PNone]
            (PInt 3),
         saved
           (mk "todo.json"
               [demo_task;
                Task.mk (PInt 2) (PStr "Call the bank") (PStr "pending") (PStr "low")
                  (PStr "money") (PStr "2024-06-01 08:00:00") PNone]
               (PInt 3))
           empty_fs))
  /\ "  Call the bank " = String.append "  " (String.append "Call the bank" " ").
Proof.
  split; [discriminate|]. split; [reflexivity|]. split; [|reflexivity].
  apply (add_task_appends "2024-06-01 08:00:00" "  Call the bank " "low" "money"
           demo_manager empty_fs 2); [discriminate|reflexivity].
Defined.

(** C4. When the description is empty after trimming, [add_task] returns
    [False] and leaves the task sequence, the counter and the file system
    as they were; the empty string and a string of spaces are such
    descriptions. *)
Theorem add_task_rejects_blank (now description priority category : string)
    (self : t) (fs : filesystem) :
  strip description = "" ->
  add_task now description priority category (self, fs) = (Return false, (self, fs))
  /\ add_task now "" priority category (self, fs) = (Return false, (self, fs))
  /\ add_task now "   " priority category (self, fs) = (Return false, (self, fs)).
Proof.
  intros Hblank. repeat split; apply add_task_blank; [exact Hblank|reflexivity..].
Qed.

Lemma add_task_rejects_blank_witness :
  strip (String (ascii_of_N 9) " ") = ""
  /\ add_task "2024-06-01 08:00:00" (String (ascii_of_N 9) " ") "medium" "general"
       (demo_manager, empty_fs)
     = (Return false, (demo_manager, empty_fs)).
Proof.
  split; [reflexivity|].
  apply (add_task_rejects_blank "2024-06-01 08:00:00" (String (ascii_of_N 9) " ")
           "medium" "general" demo_manager empty_fs).
  reflexivity.
Defined.

(** ** Clearing *)

(** C7. [clear_all_tasks] returns [True], empties the sequence, sets the
    counter to 1 and saves; a task added right afterwards gets id 1. *)
Theorem clear_all_tasks_resets (now description priority category : string)
    (self : t) (fs : filesystem) :
  strip description <> "" ->
  let cleared := mk (data_file self) [] (PInt 1) in
  let self' := added now description priority category 1 cleared in
  clear_all_tasks (self, fs) = (Return true, (cleared, saved cleared fs))
  /\ tasks cleared = []
  /\ next_id cleared = PInt 1
  /\ add_task now description priority category (cleared, saved cleared fs)
     = (Return true, (self', saved self' (saved cleared fs)))
  /\ map Task.id (tasks self') = [PInt 1].
Proof.
  intros Hd cleared self'. repeat split.
  - unfold clear_all_tasks. run_method. rewrite save_tasks_eq. reflexivity.
  - apply add_task_eq; [exact Hd|reflexivity].
Qed.

Lemma clear_all_tasks_resets_witness :
  strip "Buy bread" <> ""
  /\ clear_all_tasks (demo_manager, empty_fs)
     = (Return true, (fresh "todo.json", saved (fresh "todo.json") empty_fs))
  /\ map Task.id
       (tasks (added "2024-06-01 08:00:00" "Buy bread" "medium" "general" 1
                 (fresh "todo.json")))
     = [PInt 1].
Proof.
  split; [discriminate|].
  pose proof (clear_all_tasks_resets "2024-06-01 08:00:00" "Buy bread" "medium"
                "general" demo_manager empty_fs) as H.
  cbv zeta in H. split; apply H; discriminate.
Defined.

(** ** Completing a task twice *)

(** C9, as stated, fails: the second [mark_completed] reads the clock
    again and overwrites [completed_date]. *)
Lemma second_stamp_counterexample :
  let once := Task.mark_completed "2024-05-02 09:30:00" pending_task in
  let twice := Task.mark_completed "2024-05-02 09:30:01" once in
  Task.completed_date once = PStr "2024-05-02 09:30:00"
  /\ Task.completed_date twice = PStr "2024-05-02 09:30:01"
  /\ twice <> once.
Proof.
  cbv zeta. split; [reflexivity|]. split; [reflexivity|]. discriminate.
Qed.

(** C9, amended. Applying [mark_completed] a second time leaves every
    field but [completed_date] as the first application left it (the
    status stays "completed"); [completed_date] holds the clock reading of
    the latest call, so the result equals that of one application at the
    second reading, and the two applications agree when the clock reads
    the same. *)
Theorem mark_completed_twice (now1 now2 : string) (task : Task.t) :
  let once := Task.mark_completed now1 task in
  let twice := Task.mark_completed now2 once in
  twice = Task.mark_completed now2 task
  /\ Task.status twice = Task.status once
  /\ Task.status twice = PStr "completed"
  /\ Task.id twice = Task.id once
  /\ Task.description twice = Task.description once
  /\ Task.priority twice = Task.priority once
  /\ Task.category twice = Task.category once
  /\ Task.created_date twice = Task.created_date once
  /\ Task.completed_date twice = PStr now2
  /\ Task.mark_completed now1 once = once.
Proof. cbv zeta. repeat split. Qed.

(** ** Looking a description up *)

Lemma any_find_first (d : string) (ts : list Task.t) :
  any (same_description d) ts = outcome_map found (find_first d ts).
Proof.
  induction ts as [|task ts IH]; cbn; [reflexivity|].
  destruct (same_description d task) as [[|]|e]; [reflexivity|exact IH|reflexivity].
Qed.

Lemma same_description_true (d : string) (task : Task.t) :
  same_description d task = Return true
  <-> exists s, Task.description task = PStr s /\ lower s = lower d.
Proof.
  unfold same_description, py_lower. split.
  - destruct (Task.description task); try discriminate.
    intros H. injection H as H. apply String.eqb_eq in H. eauto.
  - intros [s [-> Hs]]. rewrite Hs, String.eqb_refl. reflexivity.
Qed.

Lemma find_first_decompose (d : string) (ts : list Task.t) (task : Task.t) :
  find_first d ts = Return (Some task) ->
  exists pre post,
    ts = (pre ++ task :: post)%list
    /\ Forall (fun x => same_description d x = Return false) pre
    /\ same_description d task = Return true.
Proof.
  induction ts as [|x ts IH]; cbn; [discriminate|].
  destruct (same_description d x) as [[|]|e] eqn:Hx; [| |discriminate].
  - intros H. injection H as <-. exists [], ts. repeat split; [constructor|exact Hx].
  - intros H. destruct (IH H) as [pre [post [-> [Hpre Htask]]]].
    exists (x :: pre), post. repeat split; [constructor; assumption|exact Htask].
Qed.

Lemma find_first_skip (d : string) (pre rest : list Task.t) :
  Forall (fun x => same_description d x = Return false) pre ->
  find_first d (pre ++ rest) = find_first d rest.
Proof.
  induction 1 as [|x pre Hx _ IH]; cbn; [reflexivity|].
  rewrite Hx. exact IH.
Qed.

(** C10. [contains_task(d)] is true exactly when
    [get_task_by_description(d)] returns a task and not [None] (and either
    raises when the other does); both compare lower-cased descriptions and
    never look at the status, and the task returned is the first match in
    list order. *)
Theorem contains_task_iff_get_task (d : string) (self : t) :
  contains_task d self = outcome_map found (get_task_by_description d self)
  /\ (contains_task d self = Return true
      <-> exists task, get_task_by_description d self = Return (Some task))
  /\ (forall task,
        get_task_by_description d self = Return (Some task) ->
        exists pre post,
          tasks self = (pre ++ task :: post)%list
          /\ Forall (fun x => same_description d x = Return false) pre
          /\ same_description d task = Return true)
  /\ (forall pre task post,
        tasks self = (pre ++ task :: post)%list ->
        Forall (fun x => same_description d x = Return false) pre ->
        same_description d task = Return true ->
        get_task_by_description d self = Return (Some task)
        /\ contains_task d self = Return true)
  /\ (forall task,
        same_description d task = Return true
        <-> exists s, Task.description task = PStr s /\ lower s = lower d)
  /\ (forall task v,
        same_description d (Task.set_status v task) = same_description d task).
Proof.
  assert (Heq : contains_task d self
                = outcome_map found (get_task_by_description d self))
    by apply any_find_first.
  split; [exact Heq|]. split; [|split; [|split; [|split]]].
  - rewrite Heq. destruct (get_task_by_description d self) as [[task|]|e]; cbn.
    + split; eauto.
    + split; [discriminate|]. intros [task H]. discriminate.
    + split; [discriminate|]. intros [task H]. discriminate.
  - intros task. apply find_first_decompose.
  - intros pre task post Hts Hpre Htask.
    assert (Hget : get_task_by_description d self = Return (Some task)).
    { unfold get_task_by_description. rewrite Hts, find_first_skip by exact Hpre.
      cbn. rewrite Htask. reflexivity. }
    split; [exact Hget|]. rewrite Heq, Hget. reflexivity.
  - intros task. apply same_description_true.
  - reflexivity.
Qed.

Lemma contains_task_iff_get_task_witness :
  get_task_by_description "BUY MILK" two_tasks = Return (Some demo_task)
  /\ contains_task "BUY MILK" two_tasks = Return true.
Proof.
  pose proof (contains_task_iff_get_task "BUY MILK" two_tasks)
    as [_ [_ [_ [Hfirst _]]]].
  apply (Hfirst [Task.mk (PInt 1) (PStr "Buy eggs") (PStr "pending") (PStr "medium")
                   (PStr "general") (PStr "2024-05-01 10:00:00") PNone]
                demo_task []).
  - reflexivity.
  - constructor; [reflexivity|constructor].
  - reflexivity.
Defined.

(** ** The mutating methods, case by case *)

Lemma mark_task_completed_eq (now d : string) (self : t) (fs : filesystem) :
  mark_task_completed now d (self, fs)
  = match complete_first now d (tasks self) with
    | Raise e => (Raise e, (self, fs))
    | Return None => (Return false, (self, fs))
    | Return (Some ts) =>
        (Return true, (set_tasks ts self, saved (set_tasks ts self) fs))
    end.
Proof.
  unfold mark_task_completed. run_method.
  destruct (complete_first now d (tasks self)) as [[ts|]|e]; try reflexivity.
  run_method. rewrite save_tasks_eq. reflexivity.
Qed.

Lemma mark_task_completed_by_id_eq (now : string) (task_id : Z)
    (self : t) (fs : filesystem) :
  mark_task_completed_by_id now task_id (self, fs)
  = match complete_first_by_id now task_id (tasks self) with
    | None => (Return false, (self, fs))
    | Some ts =>
        (Return true, (set_tasks ts self, saved (set_tasks ts self) fs))
    end.
Proof.
  unfold mark_task_completed_by_id. run_method.
  destruct (complete_first_by_id now task_id (tasks self)) as [ts|]; try reflexivity.
  run_method. rewrite save_tasks_eq. reflexivity.
Qed.

Lemma remove_task_eq (d : string) (self : t) (fs : filesystem) :
  remove_task d (self, fs)
  = match pop_first d (tasks self) with
    | Raise e => (Raise e, (self, fs))
    | Return None => (Return false, (self, fs))
    | Return (Some ts) =>
        (Return true, (set_tasks ts self, saved (set_tasks ts self) fs))
    end.
Proof.
  unfold remove_task. run_method.
  destruct (pop_first d (tasks self)) as [[ts|]|e]; try reflexivity.
  run_method. rewrite save_tasks_eq. reflexivity.
Qed.

Lemma clear_all_tasks_eq (self : t) (fs : filesystem) :
  clear_all_tasks (self, fs)
  = (Return true, (fresh (data_file self), saved (fresh (data_file self)) fs)).
Proof.
  unfold clear_all_tasks. run_method. rewrite save_tasks_eq. reflexivity.
Qed.

(** ** Completing a task by description *)

Lemma complete_first_skip (now d : string) (pre rest : list Task.t) :
  Forall (fun x => is_pending_match d x = Return false) pre ->
  complete_first now d (pre ++ rest)
  = outcome_map (option_map (app pre)) (complete_first now d rest).
Proof.
  induction 1 as [|x pre Hx _ IH]; cbn.
  - destruct (complete_first now d rest) as [[ts|]|e]; reflexivity.
  - rewrite Hx, IH.
    destruct (complete_first now d rest) as [[ts|]|e]; reflexivity.
Qed.

Lemma complete_first_none (now d : string) (ts : list Task.t) :
  Forall (fun x => is_pending_match d x = Return false) ts ->
  complete_first now d ts = Return None.
Proof.
  induction 1 as [|x ts Hx _ IH]; cbn; [reflexivity|].
  rewrite Hx, IH. reflexivity.
Qed.

Lemma is_pending_match_completed (now d : string) (task : Task.t) :
  is_pending_match d task = Return true ->
  is_pending_match d (Task.mark_completed now task) = Return false.
Proof.
  unfold is_pending_match, same_description. cbn.
  destruct (py_lower (Task.description task)) as [s|e]; [|discriminate].
  intros _. rewrite andb_false_r. reflexivity.
Qed.

(** C5, as stated, fails on the second call: descriptions may repeat,
    and with two pending tasks "Buy milk" the second
    [mark_task_completed("Buy milk")] completes the second of them and
    returns [True]. *)
Lemma second_completion_counterexample :
  fst (mark_task_completed "2024-05-01 10:02:00" "Buy milk" twice_milk)
  = Return true
  /\ fst (mark_task_completed "2024-05-01 10:03:00" "Buy milk"
            (snd (mark_task_completed "2024-05-01 10:02:00" "Buy milk" twice_milk)))
     = Return true
  /\ map (fun x => (Task.id x, Task.description x, Task.status x))
       (tasks (fst twice_milk))
     = [(PInt 1, PStr "Buy milk", PStr "pending");
        (PInt 2, PStr "Buy milk", PStr "pending")]
  /\ map (fun x => (Task.id x, Task.status x, Task.completed_date x))
       (tasks (fst (snd (mark_task_completed "2024-05-01 10:03:00" "Buy milk"
                           (snd (mark_task_completed "2024-05-01 10:02:00"
                                   "Buy milk" twice_milk))))))
     = [(PInt 1, PStr "completed", PStr "2024-05-01 10:02:00");
        (PInt 2, PStr "completed", PStr "2024-05-01 10:03:00")].
Proof. repeat split; vm_compute; reflexivity. Qed.

(** C5, amended. [mark_task_completed(d)] compares lower-cased
    descriptions.  The first task in list order that matches and is
    pending is completed in place (status "completed", [completed_date]
    the clock reading, which is not [None]), the state is saved and [True]
    is returned.  When no pending task matches, it returns [False] and
    changes nothing.  So a second call for the same description returns
    [False] when no other pending task has it; when one has, the first
    such task is completed and [True] is returned; and whatever a second
    call returns, the task completed by the first keeps its
    [completed_date]. *)
Theorem mark_task_completed_first_pending (now d : string) (self : t) (fs : filesystem) :
  (forall pre task post,
     tasks self = (pre ++ task :: post)%list ->
     Forall (fun x => is_pending_match d x = Return false) pre ->
     is_pending_match d task = Return true ->
     let done := Task.mark_completed now task in
     let self' := set_tasks (pre ++ done :: post) self in
     mark_task_completed now d (self, fs) = (Return true, (self', saved self' fs))
     /\ Task.status done = PStr "completed"
     /\ Task.completed_date done = PStr now
     /\ Task.completed_date done <> PNone
     /\ (forall now2,
           Forall (fun x => is_pending_match d x = Return false) post ->
           mark_task_completed now2 d (self', saved self' fs)
           = (Return false, (self', saved self' fs)))
     /\ (forall now2 r self2 fs2,
           mark_task_completed now2 d (self', saved self' fs) = (r, (self2, fs2)) ->
           exists post2, tasks self2 = (pre ++ done :: post2)%list)
     /\ (forall now2 mid task2 post2,
           post = (mid ++ task2 :: post2)%list ->
           Forall (fun x => is_pending_match d x = Return false) mid ->
           is_pending_match d task2 = Return true ->
           let self2 :=
             set_tasks (pre ++ done :: mid ++ Task.mark_completed now2 task2 :: post2)
               self' in
           mark_task_completed now2 d (self', saved self' fs)
           = (Return true, (self2, saved self2 (saved self' fs)))))
  /\ (Forall (fun x => is_pending_match d x = Return false) (tasks self) ->
      mark_task_completed now d (self, fs) = (Return false, (self, fs)))
  /\ (forall task,
        is_pending_match d task = Return true
        <-> (exists s, Task.description task = PStr s /\ lower s = lower d)
            /\ Task.status task = PStr "pending").
Proof.
  split; [|split].
  - intros pre task post Hts Hpre Htask done self'.
    assert (Hdone : is_pending_match d done = Return false)
      by (apply is_pending_match_completed; exact Htask).
    split; [|split; [reflexivity|split; [reflexivity|split;
      [discriminate|split; [|split]]]]].
    + rewrite mark_task_completed_eq, Hts, complete_first_skip by exact Hpre.
      cbn. rewrite Htask. reflexivity.
    + intros now2 Hpost. rewrite mark_task_completed_eq.
      rewrite complete_first_none; [reflexivity|].
      cbn. apply Forall_app. split; [exact Hpre|]. constructor; assumption.
    + intros now2 r self2 fs2. rewrite mark_task_completed_eq.
      cbn [tasks set_tasks self']. rewrite complete_first_skip by exact Hpre.
      cbn. rewrite Hdone.
      destruct (complete_first now2 d post) as [[ts|]|e]; cbn;
        intros H; injection H as _ <- _; cbn; eauto.
    + intros now2 mid task2 post2 Hpost Hmid Htask2 self2.
      rewrite mark_task_completed_eq.
      cbn [tasks set_tasks self']. rewrite complete_first_skip by exact Hpre.
      cbn [complete_first]. rewrite Hdone, Hpost.
      rewrite complete_first_skip by exact Hmid.
      cbn [complete_first]. rewrite Htask2. reflexivity.
  - intros Hall. rewrite mark_task_completed_eq, complete_first_none by exact Hall.
    reflexivity.
  - intros task. unfold is_pending_match, is_pending, py_eq_str. split.
    + destruct (same_description d task) as [[|]|e] eqn:Hsame; try discriminate.
      cbn. intros H. injection H as H.
      split; [apply same_description_true; exact Hsame|].
      destruct (Task.status task); try discriminate.
      apply String.eqb_eq in H. congruence.
    + intros [Hsame Hst]. apply same_description_true in Hsame.
      rewrite Hsame, Hst. reflexivity.
Qed.

Lemma mark_task_completed_first_pending_witness :
  mark_task_completed "2024-05-03 12:00:00" "BUY milk" (shopping, empty_fs)
  = (Return true,
     (set_tasks [eggs_task; Task.mark_completed "2024-05-03 12:00:00" milk_task] shopping,
      saved (set_tasks [eggs_task; Task.mark_completed "2024-05-03 12:00:00" milk_task]
               shopping) empty_fs))
  /\ mark_task_completed "2024-05-04 07:00:00" "BUY milk"
       (set_tasks [eggs_task; Task.mark_completed "2024-05-03 12:00:00" milk_task] shopping,
        saved (set_tasks [eggs_task; Task.mark_completed "2024-05-03 12:00:00" milk_task]
                 shopping) empty_fs)
     = (Return false,
        (set_tasks [eggs_task; Task.mark_completed "2024-05-03 12:00:00" milk_task] shopping,
         saved (set_tasks [eggs_task; Task.mark_completed "2024-05-03 12:00:00" milk_task]
                  shopping) empty_fs)).
Proof.
  pose proof (mark_task_completed_first_pending "2024-05-03 12:00:00" "BUY milk"
                shopping empty_fs) as [Hfirst _].
  specialize (Hfirst [eggs_task] milk_task [] eq_refl).
  cbv zeta in Hfirst.
  destruct Hfirst as [Hcall [_ [_ [_ [Hagain _]]]]].
  - constructor; [reflexivity|constructor].
  - reflexivity.
  - split; [exact Hcall|]. apply Hagain. constructor.
Defined.

(** ** Removing a task *)

Lemma pop_first_skip (d : string) (pre rest : list Task.t) :
  Forall (fun x => same_description d x = Return false) pre ->
  pop_first d (pre ++ rest)
  = outcome_map (option_map (app pre)) (pop_first d rest).
Proof.
  induction 1 as [|x pre Hx _ IH]; cbn.
  - destruct (pop_first d rest) as [[ts|]|e]; reflexivity.
  - rewrite Hx, IH.
    destruct (pop_first d rest) as [[ts|]|e]; reflexivity.
Qed.

Lemma pop_first_none (d : string) (ts : list Task.t) :
  Forall (fun x => same_description d x = Return false) ts ->
  pop_first d ts = Return None.
Proof.
  induction 1 as [|x ts Hx _ IH]; cbn; [reflexivity|].
  rewrite Hx, IH. reflexivity.
Qed.

Lemma ids_below_fresh_id (n : Z) (ts : list Task.t) :
  ids_below n ts -> Forall (fun x => Task.id x <> PInt n) ts.
Proof.
  unfold ids_below. intros Hall. eapply Forall_impl; [exact Hall|].
  cbn. intros x [k [Hk Hlt]]. rewrite Hk.
  intros H. injection H as H. lia.
Qed.

(** C6. [remove_task(d)] removes the first task in list order whose
    description matches [d], whatever its status; a description matches
    exactly when it is a string whose lower-cased form equals that of [d].
    The other tasks stay in order, untouched, and the counter is not
    changed.  When no task matches it returns [False] and changes nothing.
    In a manager whose counter lies above every id in the list, an
    [add_task] after the removal gets the value of the counter as id,
    which is neither the removed task's id nor that of a remaining
    task. *)
Theorem remove_task_first_match (d : string) (self : t) (fs : filesystem) :
  (forall pre task post,
     tasks self = (pre ++ task :: post)%list ->
     Forall (fun x => same_description d x = Return false) pre ->
     same_description d task = Return true ->
     let self' := set_tasks (pre ++ post) self in
     remove_task d (self, fs) = (Return true, (self', saved self' fs))
     /\ tasks self' = (pre ++ post)%list
     /\ next_id self' = next_id self
     /\ (forall now description priority category n,
           strip description <> "" ->
           next_id self = PInt n ->
           ids_below n (tasks self) ->
           let self2 := added now description priority category n self' in
           add_task now description priority category (self', saved self' fs)
           = (Return true, (self2, saved self2 (saved self' fs)))
           /\ last (tasks self2) = Some (new_task now description priority category n)
           /\ Task.id (new_task now description priority category n) = PInt n
           /\ Task.id task <> PInt n
           /\ Forall (fun x => Task.id x <> PInt n) (tasks self')))
  /\ (Forall (fun x => same_description d x = Return false) (tasks self) ->
      remove_task d (self, fs) = (Return false, (self, fs)))
  /\ (forall task v,
        same_description d (Task.set_status v task) = same_description d task)
  /\ (forall task,
        same_description d task = Return true
        <-> exists s, Task.description task = PStr s /\ lower s = lower d)
  /\ (forall task s,
        Task.description task = PStr s -> lower s <> lower d ->
        same_description d task = Return false).
Proof.
  split; [|split; [|split; [|split]]].
  - intros pre task post Hts Hpre Htask self'.
    split; [|split; [reflexivity|split; [reflexivity|]]].
    + rewrite remove_task_eq, Hts, pop_first_skip by exact Hpre.
      cbn. rewrite Htask. reflexivity.
    + intros now description priority category n Hd Hn Hbelow self2.
      apply ids_below_fresh_id in Hbelow. rewrite Hts in Hbelow.
      apply Forall_app in Hbelow as [Hb1 Hb2].
      apply Forall_cons in Hb2 as [Hb2 Hb3].
      split; [apply add_task_eq; [exact Hd|exact Hn]|].
      split; [apply last_snoc|]. split; [reflexivity|]. split; [exact Hb2|].
      cbn. apply Forall_app. split; assumption.
  - intros Hall. rewrite remove_task_eq, pop_first_none by exact Hall.
    reflexivity.
  - reflexivity.
  - intros task. apply same_description_true.
  - intros task s Hs Hne. unfold same_description. rewrite Hs. cbn.
    apply String.eqb_neq in Hne. rewrite Hne. reflexivity.
Qed.

Lemma remove_task_first_match_witness :
  remove_task "buy MILK" (shopping, empty_fs)
  = (Return true,
     (mk "todo.json" [eggs_task] (PInt 3),
      saved (mk "todo.json" [eggs_task] (PInt 3)) empty_fs))
  /\ Task.id milk_task <> PInt 3
  /\ remove_task "nothing like it" (shopping, empty_fs)
     = (Return false, (shopping, empty_fs)).
Proof.
  pose proof (remove_task_first_match "buy MILK" shopping empty_fs) as [Hfirst _].
  pose proof (remove_task_first_match "nothing like it" shopping empty_fs)
    as [_ [Hnone _]].
  specialize (Hfirst [eggs_task] milk_task [] eq_refl).
  cbv zeta in Hfirst. destruct Hfirst as [Hcall [_ [_ Hadd]]].
  - constructor; [reflexivity|constructor].
  - reflexivity.
  - split; [exact Hcall|]. split.
    + apply (Hadd "2024-05-03 12:00:00" "Buy bread" "medium" "general" 3).
      * discriminate.
      * reflexivity.
      * repeat constructor; eexists; (split; [reflexivity|lia]).
    + apply Hnone. repeat constructor.
Defined.

(** ** The counter along a sequence of operations *)

Lemma add_task_cases (now d p c : string) (self : t) (fs : filesystem) (n : Z) :
  next_id self = PInt n ->
  add_task now d p c (self, fs) = (Return false, (self, fs))
  \/ add_task now d p c (self, fs)
     = (Return true, (added now d p c n self, saved (added now d p c n self) fs)).
Proof.
  intros Hn. destruct (strip d) as [|a s] eqn:Hd.
  - left. apply add_task_blank. exact Hd.
  - right. apply add_task_eq; [rewrite Hd; discriminate|exact Hn].
Qed.

(** A call other than [clear_all_tasks] either gives out the value of the
    counter and increments it, or gives out nothing and leaves it. *)
Lemma step_counter (o : op) (w : world) (n : Z) :
  is_clear o = false ->
  next_id (fst w) = PInt n ->
  (assigned (o, fst (step o w), snd (step o w)) = Some (PInt n)
   /\ next_id (fst (snd (step o w))) = PInt (n + 1))
  \/ (assigned (o, fst (step o w), snd (step o w)) = None
      /\ next_id (fst (snd (step o w))) = PInt n).
Proof.
  destruct w as [self fs]. cbn [fst]. intros Hclear Hn.
  destruct o; cbn [step returning fst snd]; try discriminate;
    try (right; split; [reflexivity|exact Hn]).
  - destruct (add_task_cases now description priority category self fs n Hn)
      as [Heq|Heq]; rewrite Heq; cbn [fst snd outcome_map].
    + right. split; [reflexivity|exact Hn].
    + left. split; [|reflexivity]. cbn [assigned added tasks].
      rewrite last_snoc. reflexivity.
  - right. rewrite mark_task_completed_eq.
    destruct (complete_first now task_description (tasks self)) as [[ts|]|e];
      (split; [reflexivity|exact Hn]).
  - right. rewrite mark_task_completed_by_id_eq.
    destruct (complete_first_by_id now task_id (tasks self)) as [ts|];
      (split; [reflexivity|exact Hn]).
  - right. rewrite remove_task_eq.
    destruct (pop_first task_description (tasks self)) as [[ts|]|e];
      (split; [reflexivity|exact Hn]).
Qed.

Lemma run_cons (o : op) (rest : list op) (w : world) :
  run (o :: rest) w
  = (o, fst (step o w), snd (step o w)) :: run rest (snd (step o w)).
Proof. cbn [run]. destruct (step o w) as [r w']. reflexivity. Qed.

(** C2, as stated, fails: [clear_all_tasks] sets the counter back to 1,
    so the next task gets an id that was given out before. *)
Lemma ids_after_clear_counterexample :
  assigned_ids (run session (fresh "todo.json", empty_fs)) = [PInt 1; PInt 2; PInt 1]
  /\ counters (run session (fresh "todo.json", empty_fs))
     = [PInt 2; PInt 3; PInt 1; PInt 2]
  /\ ~ StronglySorted Z.lt [1; 2; 1]
  /\ ~ Sorted Z.le [1; 2; 3; 1; 2].
Proof.
  split; [vm_compute; reflexivity|]. split; [vm_compute; reflexivity|]. split.
  - intros H. inversion H as [|? ? _ Hall]; subst.
    inversion Hall as [|? ? _ Hall']; subst.
    inversion Hall' as [|? ? Hlt _]; subst. lia.
  - intros H.
    do 2 (let H' := fresh in inversion H as [|? ? H' _]; subst; clear H; rename H' into H).
    inversion H as [|? ? _ Hhd]; subst. inversion Hhd; subst. lia.
Qed.

(** C2, amended. Along every sequence of operations without
    [clear_all_tasks], run from a manager whose counter holds the integer
    [n], the ids given out by the successful [add_task] calls are integers,
    strictly increasing in the order of the calls and none below [n], so
    no id is given out twice whatever is removed in between; and the
    counter after each call is an integer not below what it was before the
    call. *)
Theorem ids_increase_without_clear (ops : list op) (w : world) (n : Z) :
  Forall (fun o => is_clear o = false) ops ->
  next_id (fst w) = PInt n ->
  exists ks cs,
    assigned_ids (run ops w) = map PInt ks
    /\ StronglySorted Z.lt ks
    /\ Forall (fun k => n <= k) ks
    /\ counters (run ops w) = map PInt cs
    /\ Sorted Z.le (n :: cs)
    /\ Forall (fun c => n <= c) cs.
Proof.
  intros Hops. revert w n.
  induction Hops as [|o ops Ho _ IH]; intros w n Hn.
  - exists [], []. cbn. repeat split; constructor; constructor.
  - rewrite run_cons. unfold assigned_ids, counters. cbn [omap list_omap map snd fst].
    destruct (step_counter o w n Ho Hn) as [[Has Hnext]|[Has Hnext]];
      destruct (IH _ _ Hnext) as [ks [cs [Hks [Hsorted [Hge [Hcs [Hmono Hcge]]]]]]];
      unfold assigned_ids, counters in Hks, Hcs.
    + exists (n :: ks), ((n + 1) :: cs).
      cbn [snd fst] in Has. rewrite Has, Hks, Hcs, Hnext.
      repeat split.
      * constructor; [exact Hsorted|].
        eapply Forall_impl; [exact Hge|]. cbn. intros; lia.
      * constructor; [lia|]. eapply Forall_impl; [exact Hge|]. cbn. intros; lia.
      * constructor; [exact Hmono|]. constructor. lia.
      * constructor; [lia|]. eapply Forall_impl; [exact Hcge|]. cbn. intros; lia.
    + exists ks, (n :: cs).
      cbn [snd fst] in Has. rewrite Has, Hks, Hcs, Hnext.
      repeat split.
      * exact Hsorted.
      * exact Hge.
      * constructor; [exact Hmono|]. constructor. lia.
      * constructor; [lia|exact Hcge].
Qed.

Lemma ids_increase_without_clear_witness :
  Forall (fun o => is_clear o = false) session_without_clear
  /\ next_id (fst (shopping, empty_fs)) = PInt 3
  /\ exists ks cs,
       assigned_ids (run session_without_clear (shopping, empty_fs)) = map PInt ks
       /\ StronglySorted Z.lt ks
       /\ Forall (fun k => 3 <= k) ks
       /\ counters (run session_without_clear (shopping, empty_fs)) = map PInt cs
       /\ Sorted Z.le (3 :: cs)
       /\ Forall (fun c => 3 <= c) cs.
Proof.
  assert (Hops : Forall (fun o => is_clear o = false) session_without_clear)
    by (repeat constructor).
  split; [exact Hops|]. split; [reflexivity|].
  exact (ids_increase_without_clear session_without_clear (shopping, empty_fs) 3
           Hops eq_refl).
Defined.

(** ** The counter lies above every id *)

(** The hypothesis of C6 on the ids holds in a new manager and is kept by
    every operation, [clear_all_tasks] included. *)

Lemma fresh_consistent (path : string) : consistent (fresh path).
Proof. exists 1. split; [reflexivity|constructor]. Qed.

Lemma complete_first_Forall (P : Task.t -> Prop) (now d : string) (ts ts' : list Task.t) :
  (forall x, P x -> P (Task.mark_completed now x)) ->
  Forall P ts ->
  complete_first now d ts = Return (Some ts') ->
  Forall P ts'.
Proof.
  intros Hmark Hall. revert ts'.
  induction Hall as [|x ts Hx Hall IH]; cbn; [discriminate|].
  intros ts'. destruct (is_pending_match d x) as [[|]|e]; [| |discriminate].
  - intros H. injection H as <-. constructor; auto.
  - destruct (complete_first now d ts) as [[ts0|]|e]; cbn; try discriminate.
    intros H. injection H as <-. constructor; auto.
Qed.

Lemma complete_first_by_id_Forall (P : Task.t -> Prop) (now : string) (i : Z)
    (ts ts' : list Task.t) :
  (forall x, P x -> P (Task.mark_completed now x)) ->
  Forall P ts ->
  complete_first_by_id now i ts = Some ts' ->
  Forall P ts'.
Proof.
  intros Hmark Hall. revert ts'.
  induction Hall as [|x ts Hx Hall IH]; cbn; [discriminate|].
  intros ts'. destruct (py_eq_int (Task.id x) i && is_pending x).
  - intros H. injection H as <-. constructor; auto.
  - destruct (complete_first_by_id now i ts) as [ts0|]; cbn; try discriminate.
    intros H. injection H as <-. constructor; auto.
Qed.

Lemma pop_first_Forall (P : Task.t -> Prop) (d : string) (ts ts' : list Task.t) :
  Forall P ts ->
  pop_first d ts = Return (Some ts') ->
  Forall P ts'.
Proof.
  intros Hall. revert ts'.
  induction Hall as [|x ts Hx Hall IH]; cbn; [discriminate|].
  intros ts'. destruct (same_description d x) as [[|]|e]; [| |discriminate].
  - intros H. injection H as <-. exact Hall.
  - destruct (pop_first d ts) as [[ts0|]|e]; cbn; try discriminate.
    intros H. injection H as <-. constructor; auto.
Qed.

Lemma step_consistent (o : op) (w : world) :
  consistent (fst w) -> consistent (fst (snd (step o w))).
Proof.
  destruct w as [self fs]. cbn [fst]. intros [n [Hn Hbelow]].
  assert (Hself : consistent self) by (exists n; split; assumption).
  assert (Hmark : forall now x,
             (exists k, Task.id x = PInt k /\ k < n) ->
             exists k, Task.id (Task.mark_completed now x) = PInt k /\ k < n)
    by (intros now x H; exact H).
  destruct o; cbn [step returning fst snd]; try exact Hself.
  - destruct (add_task_cases now description priority category self fs n Hn)
      as [Heq|Heq]; rewrite Heq; cbn [fst snd]; [exact Hself|].
    exists (n + 1). split; [reflexivity|]. cbn [added tasks].
    apply Forall_app. split.
    + eapply Forall_impl; [exact Hbelow|]. cbn. intros x [k [Hk Hlt]].
      exists k. split; [exact Hk|lia].
    + constructor; [|constructor]. exists n. split; [reflexivity|lia].
  - rewrite mark_task_completed_eq.
    destruct (complete_first now task_description (tasks self)) as [[ts|]|e] eqn:Hc;
      cbn [fst snd]; try exact Hself.
    exists n. split; [exact Hn|].
    exact (complete_first_Forall _ _ _ _ _ (Hmark now) Hbelow Hc).
  - rewrite mark_task_completed_by_id_eq.
    destruct (complete_first_by_id now task_id (tasks self)) as [ts|] eqn:Hc;
      cbn [fst snd]; try exact Hself.
    exists n. split; [exact Hn|].
    exact (complete_first_by_id_Forall _ _ _ _ _ (Hmark now) Hbelow Hc).
  - rewrite remove_task_eq.
    destruct (pop_first task_description (tasks self)) as [[ts|]|e] eqn:Hc;
      cbn [fst snd]; try exact Hself.
    exists n. split; [exact Hn|].
    exact (pop_first_Forall _ _ _ _ Hbelow Hc).
  - rewrite clear_all_tasks_eq. cbn [fst snd]. apply fresh_consistent.
Qed.

Lemma run_consistent (ops : list op) (w : world) :
  consistent (fst w) ->
  Forall (fun ev : event => consistent (fst (snd ev))) (run ops w).
Proof.
  revert w. induction ops as [|o ops IH]; intros w Hw; [constructor|].
  rewrite run_cons. constructor.
  - cbn [snd]. apply step_consistent, Hw.
  - apply IH, step_consistent, Hw.
Qed.

(** ** Files that load *)

(** [malformed] is exact: a file that is there and makes the [try] block
    of [load_tasks] raise is malformed. *)
Lemma load_tasks_try_raises (now : string) (self self' : t) (fs fs' : filesystem)
    (c : content) (e : exn) :
  files fs !! data_file self = Some c ->
  load_tasks_try now (self, fs) = (Raise e, (self', fs')) ->
  malformed now c.
Proof.
  intros Hfile. unfold load_tasks_try, path_exists, read_json. run_method.
  rewrite Hfile. destruct c as [| |v]; [constructor|constructor|].
  destruct (py_get v "next_id" (PInt 1)) as [n|e1] eqn:Hn;
    [|intros _; eapply malformed_not_object; exact Hn].
  cbn. destruct (py_get v "tasks" (PList [])) as [src|e2] eqn:Hsrc.
  - destruct (py_iter src) as [elems|e3] eqn:Hiter;
      [|intros _; eapply malformed_tasks; eassumption].
    destruct (comprehension (Task.from_dict now) elems) as [ts|e4] eqn:Hcomp;
      [discriminate|].
    intros _. eapply malformed_record; [exact Hsrc|exact Hiter|].
    clear Hiter. revert e4 Hcomp. induction elems as [|x elems IH]; cbn;
      [discriminate|].
    destruct (Task.from_dict now x) as [y|e5] eqn:Hx.
    + destruct (comprehension (Task.from_dict now) elems) as [ys|e6];
        cbn; [discriminate|].
      intros e4 _. apply Exists_cons_tl. eapply IH. reflexivity.
    + intros e4 _. apply Exists_cons_hd. eauto.
  - destruct v; cbn in Hn, Hsrc; try discriminate.
    destruct (assoc "tasks" items); discriminate.
Qed.

(** * Further properties *)

(** ** Reading a task record *)

Lemma from_dict_dict (now : string) (items : list (string * pyval)) :
  Task.from_dict now (PDict items)
  = match assoc "description" items, assoc "priority" items,
          assoc "category" items, assoc "id" items, assoc "status" items,
          assoc "created_date" items, assoc "completed_date" items with
    | Some d, Some p, Some c, Some i, Some s, Some cd, Some fd =>
        Return (Task.mk i d s p c cd fd)
    | _, _, _, _, _, _, _ => Raise KeyError
    end.
Proof.
  unfold Task.from_dict, py_getitem.
  destruct (assoc "description" items); [|reflexivity].
  destruct (assoc "priority" items); [|reflexivity].
  destruct (assoc "category" items); [|reflexivity].
  destruct (assoc "id" items); [|reflexivity].
  destruct (assoc "status" items); [|reflexivity].
  destruct (assoc "created_date" items); [|reflexivity].
  destruct (assoc "completed_date" items); reflexivity.
Qed.

(** X1. [Task.from_dict] returns a task exactly when its argument is a
    dictionary that has the seven keys, and the fields of the task are the
    values under them, whatever else the dictionary holds and whatever the
    clock reads.  Otherwise it raises: [TypeError] when the argument is
    not a dictionary, [KeyError] when one of the seven keys is missing. *)
Theorem from_dict_reads_seven_keys (now : string) (data : pyval) :
  (forall task,
     Task.from_dict now data = Return task
     <-> exists items, data = PDict items /\ holds_fields items task)
  /\ (forall e,
        Task.from_dict now data = Raise e
        <-> (e = TypeError /\ forall items, data <> PDict items)
            \/ (e = KeyError
                /\ exists items key,
                     data = PDict items /\ In key task_keys
                     /\ assoc key items = None)).
Proof.
  destruct data as [|b|n|s|l|items];
    try (split;
         [intros task; split;
          [discriminate|intros [items [H _]]; discriminate]
         |intros e; split;
          [intros H; injection H as <-; left; split; [reflexivity|discriminate]
          |intros [[-> _]|[_ [items [key [H _]]]]]; [reflexivity|discriminate]]]).
  rewrite from_dict_dict. unfold holds_fields, task_keys. split.
  - intros task. split.
    + intros H. exists items. split; [reflexivity|].
      destruct (assoc "description" items); [|discriminate].
      destruct (assoc "priority" items); [|discriminate].
      destruct (assoc "category" items); [|discriminate].
      destruct (assoc "id" items); [|discriminate].
      destruct (assoc "status" items); [|discriminate].
      destruct (assoc "created_date" items); [|discriminate].
      destruct (assoc "completed_date" items); [|discriminate].
      injection H as <-. cbn. repeat split.
    + intros [items' [Heq [Hi [Hd [Hs [Hp [Hc [Hcd Hfd]]]]]]]].
      injection Heq as <-. rewrite Hi, Hd, Hs, Hp, Hc, Hcd, Hfd.
      destruct task; reflexivity.
  - intros e. split.
    + intros H. right.
      assert (He : e = KeyError).
      { destruct (assoc "description" items), (assoc "priority" items),
          (assoc "category" items), (assoc "id" items), (assoc "status" items),
          (assoc "created_date" items), (assoc "completed_date" items);
          congruence. }
      split; [exact He|]. exists items.
      destruct (assoc "description" items) eqn:H1;
        [|exists "description"; cbn; auto 10].
      destruct (assoc "priority" items) eqn:H2;
        [|exists "priority"; cbn; auto 10].
      destruct (assoc "category" items) eqn:H3;
        [|exists "category"; cbn; auto 10].
      destruct (assoc "id" items) eqn:H4; [|exists "id"; cbn; auto 10].
      destruct (assoc "status" items) eqn:H5; [|exists "status"; cbn; auto 10].
      destruct (assoc "created_date" items) eqn:H6;
        [|exists "created_date"; cbn; auto 10].
      destruct (assoc "completed_date" items) eqn:H7;
        [|exists "completed_date"; cbn; auto 12].
      discriminate.
    + intros [[_ Hno]|[-> [items' [key [Heq [Hin Hnone]]]]]].
      * exfalso. exact (Hno items eq_refl).
      * injection Heq as <-. cbn in Hin.
        destruct Hin as [<-|[<-|[<-|[<-|[<-|[<-|[<-|[]]]]]]]]; rewrite Hnone;
          repeat match goal with
                 | |- context [match ?o with Some _ => _ | None => _ end] =>
                     destruct o
                 end; reflexivity.
Qed.

(** X2. Serialising a task that [from_dict] has read gives back, under
    each of the seven keys, the value the record had there: what
    [to_dict] writes after a load is what was loaded, less the keys the
    program does not know. *)
Theorem to_dict_keeps_loaded_values (now : string) (data : pyval) (task : Task.t) :
  Task.from_dict now data = Return task ->
  Forall (fun key => py_getitem (Task.to_dict task) key = py_getitem data key)
    task_keys
  /\ py_iter (Task.to_dict task)
     = Return (map PStr ["id"; "description"; "status"; "priority"; "category";
                         "created_date"; "completed_date"]).
Proof.
  intros H. split; [|reflexivity].
  destruct data as [|b|n|s|l|items]; try discriminate.
  rewrite from_dict_dict in H.
  destruct (assoc "description" items) eqn:H1; [|discriminate].
  destruct (assoc "priority" items) eqn:H2; [|discriminate].
  destruct (assoc "category" items) eqn:H3; [|discriminate].
  destruct (assoc "id" items) eqn:H4; [|discriminate].
  destruct (assoc "status" items) eqn:H5; [|discriminate].
  destruct (assoc "created_date" items) eqn:H6; [|discriminate].
  destruct (assoc "completed_date" items) eqn:H7; [|discriminate].
  injection H as <-. unfold task_keys, py_getitem.
  repeat constructor; cbn; rewrite ?H1, ?H2, ?H3, ?H4, ?H5, ?H6, ?H7; reflexivity.
Qed.

Lemma to_dict_keeps_loaded_values_witness :
  Task.from_dict "2024-06-01 08:00:00" record_with_note = Return task_with_note
  /\ Forall (fun key => py_getitem (Task.to_dict task_with_note) key
                        = py_getitem record_with_note key) task_keys.
Proof.
  split; [reflexivity|].
  apply (to_dict_keeps_loaded_values "2024-06-01 08:00:00" record_with_note
           task_with_note).
  reflexivity.
Defined.

(** ** Loading a file that parses *)



(** ** What a call does to the manager and to the file system *)

Lemma add_task_unfold (now d p c : string) (self : t) (fs : filesystem) :
  add_task now d p c (self, fs)
  = if truthy (strip d)
    then match py_iadd1 (next_id self) with
         | Raise e => (Raise e, (appended now d p c self, fs))
         | Return v =>
             (Return true,
              (set_next_id v (appended now d p c self),
               saved (set_next_id v (appended now d p c self)) fs))
         end
    else (Return false, (self, fs)).
Proof.
  unfold add_task. destruct (truthy (strip d)); [|reflexivity].
  cbn [negb]. run_method. unfold appended.
  destruct (py_iadd1 (next_id self)) as [v|e]; [|reflexivity].
  run_method. rewrite save_tasks_eq. reflexivity.
Qed.

(** A call leaves the manager and the file system as they were, or leaves
    a manager on the same path and has saved it; the one other case is an
    [add_task] that raises on a counter that is not a number. *)
Lemma step_shape (o : op) (self : t) (fs : filesystem) :
  snd (step o (self, fs)) = (self, fs)
  \/ (exists self',
        data_file self' = data_file self
        /\ snd (step o (self, fs)) = (self', saved self' fs)
        /\ fst (step o (self, fs)) = Return (RBool true))
  \/ (exists now d p c e,
        o = AddTask now d p c
        /\ py_iadd1 (next_id self) = Raise e
        /\ step o (self, fs) = (Raise e, (appended now d p c self, fs))).
Proof.
  destruct o; cbn [step returning fst snd query query_raising]; auto.
  - rewrite !add_task_unfold. destruct (truthy (strip description)) eqn:Ht; [|auto].
    destruct (py_iadd1 (next_id self)) as [v|e] eqn:Hv.
    + right. left. eexists. split; [|split; reflexivity]. reflexivity.
    + right. right. exists now, description, priority, category, e.
      split; [reflexivity|]. split; [reflexivity|].
      unfold returning. rewrite add_task_unfold, Ht, Hv. reflexivity.
  - rewrite mark_task_completed_eq.
    destruct (complete_first now task_description (tasks self)) as [[ts|]|e]; auto.
    right. left. eexists. split; [|split; reflexivity]. reflexivity.
  - rewrite mark_task_completed_by_id_eq.
    destruct (complete_first_by_id now task_id (tasks self)) as [ts|]; auto.
    right. left. eexists. split; [|split; reflexivity]. reflexivity.
  - rewrite remove_task_eq.
    destruct (pop_first task_description (tasks self)) as [[ts|]|e]; auto.
    right. left. eexists. split; [|split; reflexivity]. reflexivity.
  - rewrite clear_all_tasks_eq.
    right. left. eexists. split; [|split; reflexivity]. reflexivity.
Qed.

Lemma saved_locked (self : t) (fs : filesystem) :
  locked (saved self fs) = locked fs.
Proof.
  unfold saved. destruct (decide (data_file self ∈ locked fs)); [reflexivity|].
  destruct (dumpable (snapshot self)); reflexivity.
Qed.

Lemma saved_other_path (self : t) (fs : filesystem) (p : string) :
  p <> data_file self -> files (saved self fs) !! p = files fs !! p.
Proof.
  intros Hp. unfold saved.
  destruct (decide (data_file self ∈ locked fs)); [reflexivity|].
  destruct (dumpable (snapshot self)); cbn [files]; apply lookup_insert_ne;
    congruence.
Qed.

Lemma saved_on_locked_path (self : t) (fs : filesystem) :
  (data_file self ∈ locked fs) -> saved self fs = fs.
Proof.
  intros Hin. unfold saved.
  destruct (decide (data_file self ∈ locked fs)); [reflexivity|contradiction].
Qed.






Lemma step_data_file (o : op) (self : t) (fs : filesystem) :
  data_file (fst (snd (step o (self, fs)))) = data_file self
  /\ locked (snd (snd (step o (self, fs)))) = locked fs.
Proof.
  destruct (step_shape o self fs)
    as [H|[[self' [Hpath [H _]]]|[now [d [p [c [e [_ [_ H]]]]]]]]]; rewrite H; cbn.
  - split; reflexivity.
  - split; [exact Hpath|apply saved_locked].
  - split; reflexivity.
Qed.





(** X5. A call reads nothing from the file system and writes at most the
    manager's own file: what it returns and the manager it leaves are the
    same on every file system; the path of the manager, the files at other
    paths and the set of paths that cannot be written stay as they were;
    and when the manager's path cannot be written the file system is not
    changed at all, the failure of the write being swallowed. *)
Theorem calls_touch_own_file_only (o : op) (self : t) (fs : filesystem) :
  data_file (fst (snd (step o (self, fs)))) = data_file self
  /\ locked (snd (snd (step o (self, fs)))) = locked fs
  /\ (forall p, p <> data_file self ->
        files (snd (snd (step o (self, fs)))) !! p = files fs !! p)
  /\ ((data_file self ∈ locked fs) -> snd (snd (step o (self, fs))) = fs)
  /\ (forall fs2,
        fst (step o (self, fs2)) = fst (step o (self, fs))
        /\ fst (snd (step o (self, fs2))) = fst (snd (step o (self, fs)))).
Proof.
  split; [apply step_data_file|]. split; [apply step_data_file|].
  split; [|split].
  - intros p Hp.
    destruct (step_shape o self fs)
      as [H|[[self' [Hpath [H _]]]|[now [d [pr [c [e [_ [_ H]]]]]]]]];
      rewrite H; cbn; try reflexivity.
    apply saved_other_path. congruence.
  - intros Hin.
    destruct (step_shape o self fs)
      as [H|[[self' [Hpath [H _]]]|[now [d [pr [c [e [_ [_ H]]]]]]]]];
      rewrite H; cbn; try reflexivity.
    apply saved_on_locked_path. congruence.
  - intros fs2.
    destruct o; cbn [step returning fst snd query query_raising];
      try (split; reflexivity).
    + rewrite !add_task_unfold. destruct (truthy (strip description));
        [|split; reflexivity].
      destruct (py_iadd1 (next_id self)); split; reflexivity.
    + rewrite !mark_task_completed_eq.
      destruct (complete_first now task_description (tasks self)) as [[ts|]|e];
        split; reflexivity.
    + rewrite !mark_task_completed_by_id_eq.
      destruct (complete_first_by_id now task_id (tasks self)) as [ts|];
        split; reflexivity.
    + rewrite !remove_task_eq.
      destruct (pop_first task_description (tasks self)) as [[ts|]|e];
        split; reflexivity.
    + rewrite !clear_all_tasks_eq. split; reflexivity.
Qed.

Lemma calls_touch_own_file_only_witness :
  files (snd (snd (step (AddTask "2024-06-01 08:00:00" "Buy bread" "low" "food")
                     (shopping, other_fs)))) !! "notes.txt"
  = files other_fs !! "notes.txt"
  /\ snd (snd (step (AddTask "2024-06-01 08:00:00" "Buy bread" "low" "food")
                (shopping, other_fs)))
     = other_fs.
Proof.
  pose proof (calls_touch_own_file_only
                (AddTask "2024-06-01 08:00:00" "Buy bread" "low" "food")
                shopping other_fs) as [_ [_ [Hother [Hlocked _]]]].
  split.
  - apply Hother. discriminate.
  - apply Hlocked. vm_compute. reflexivity.
Defined.

(** X6. A call that does not return [True] changes nothing: when the
    counter is an integer, after a call that returns [False], [None], a
    task or a list, or that raises, the manager and the file system are
    what they were before the call. *)
Theorem no_true_no_change (o : op) (self : t) (fs : filesystem) :
  counting self ->
  fst (step o (self, fs)) <> Return (RBool true) ->
  snd (step o (self, fs)) = (self, fs).
Proof.
  intros [n Hn] Hr.
  destruct (step_shape o self fs)
    as [H|[[self' [_ [_ H]]]|[now [d [p [c [e [_ [He _]]]]]]]]].
  - exact H.
  - contradiction.
  - rewrite Hn in He. discriminate.
Qed.

Lemma no_true_no_change_witness :
  counting shopping
  /\ fst (step (RemoveTask "Buy bread") (shopping, empty_fs)) <> Return (RBool true)
  /\ snd (step (RemoveTask "Buy bread") (shopping, empty_fs)) = (shopping, empty_fs).
Proof.
  assert (Hc : counting shopping) by (exists 3; reflexivity).
  assert (Hr : fst (step (RemoveTask "Buy bread") (shopping, empty_fs))
               <> Return (RBool true)) by discriminate.
  split; [exact Hc|]. split; [exact Hr|].
  exact (no_true_no_change (RemoveTask "Buy bread") shopping empty_fs Hc Hr).
Defined.

(** ** The description [add_task] stores *)

(** X7. The description [add_task] stores has no white space at either
    end and is not empty, and trimming it again changes nothing: a call
    with the stored text does what the call with the original text did. *)
Theorem add_task_stores_trimmed (now description priority category : string)
    (w : world) :
  strip description <> "" ->
  trimmed (strip description)
  /\ strip (strip description) = strip description
  /\ add_task now (strip description) priority category w
     = add_task now description priority category w
  /\ (forall n, next_id (fst w) = PInt n ->
        last (tasks (fst (snd (add_task now description priority category w))))
        = Some (new_task now description priority category n)
        /\ Task.description (new_task now description priority category n)
           = PStr (strip description)).
Proof.
  intros Hd. split; [apply strip_trimmed|]. split; [apply strip_idempotent|].
  destruct w as [self fs]. split.
  - rewrite !add_task_unfold. unfold appended. rewrite strip_idempotent.
    reflexivity.
  - intros n Hn. cbn [fst] in Hn.
    rewrite (add_task_eq now description priority category self fs n Hd Hn).
    cbn [fst snd added tasks]. split; [apply last_snoc|reflexivity].
Qed.

Lemma add_task_stores_trimmed_witness :
  strip "  Call the bank " <> ""
  /\ trimmed (strip "  Call the bank ")
  /\ add_task "2024-06-01 08:00:00" (strip "  Call the bank ") "low" "money"
       (demo_manager, empty_fs)
     = add_task "2024-06-01 08:00:00" "  Call the bank " "low" "money"
         (demo_manager, empty_fs).
Proof.
  assert (Hd : strip "  Call the bank " <> "") by discriminate.
  split; [exact Hd|].
  pose proof (add_task_stores_trimmed "2024-06-01 08:00:00" "  Call the bank "
                "low" "money" (demo_manager, empty_fs) Hd) as [Ht [_ [Hsame _]]].
  split; [exact Ht|exact Hsame].
Defined.

(** ** What the loops do to the list *)

Lemma complete_first_decompose (now d : string) (ts ts' : list Task.t) :
  complete_first now d ts = Return (Some ts') ->
  exists pre x post,
    ts = (pre ++ x :: post)%list
    /\ ts' = (pre ++ Task.mark_completed now x :: post)%list
    /\ Forall (fun y => is_pending_match d y = Return false) pre
    /\ is_pending_match d x = Return true.
Proof.
  revert ts'. induction ts as [|a ts IH]; cbn; [discriminate|].
  intros ts'. destruct (is_pending_match d a) as [[|]|e] eqn:Ha; [| |discriminate].
  - intros H. injection H as <-. exists [], a, ts. repeat split; [constructor|exact Ha].
  - destruct (complete_first now d ts) as [[ts0|]|e]; cbn; try discriminate.
    intros H. injection H as <-.
    destruct (IH ts0 eq_refl) as [pre [x [post [-> [-> [Hpre Hx]]]]]].
    exists (a :: pre), x, post. repeat split; [constructor; assumption|exact Hx].
Qed.

Lemma complete_first_by_id_decompose (now : string) (i : Z) (ts ts' : list Task.t) :
  complete_first_by_id now i ts = Some ts' ->
  exists pre x post,
    ts = (pre ++ x :: post)%list
    /\ ts' = (pre ++ Task.mark_completed now x :: post)%list
    /\ Forall (fun y => py_eq_int (Task.id y) i && is_pending y = false) pre
    /\ py_eq_int (Task.id x) i && is_pending x = true.
Proof.
  revert ts'. induction ts as [|a ts IH]; cbn; [discriminate|].
  intros ts'. destruct (py_eq_int (Task.id a) i && is_pending a) eqn:Ha.
  - intros H. injection H as <-. exists [], a, ts. repeat split; [constructor|exact Ha].
  - destruct (complete_first_by_id now i ts) as [ts0|]; cbn; try discriminate.
    intros H. injection H as <-.
    destruct (IH ts0 eq_refl) as [pre [x [post [-> [-> [Hpre Hx]]]]]].
    exists (a :: pre), x, post. repeat split; [constructor; assumption|exact Hx].
Qed.

Lemma pop_first_decompose (d : string) (ts ts' : list Task.t) :
  pop_first d ts = Return (Some ts') ->
  exists pre x post,
    ts = (pre ++ x :: post)%list
    /\ ts' = (pre ++ post)%list
    /\ Forall (fun y => same_description d y = Return false) pre
    /\ same_description d x = Return true.
Proof.
  revert ts'. induction ts as [|a ts IH]; cbn; [discriminate|].
  intros ts'. destruct (same_description d a) as [[|]|e] eqn:Ha; [| |discriminate].
  - intros H. injection H as <-. exists [], a, ts. repeat split; [constructor|exact Ha].
  - destruct (pop_first d ts) as [[ts0|]|e]; cbn; try discriminate.
    intros H. injection H as <-.
    destruct (IH ts0 eq_refl) as [pre [x [post [-> [-> [Hpre Hx]]]]]].
    exists (a :: pre), x, post. repeat split; [constructor; assumption|exact Hx].
Qed.

(** ** Sorted lists *)

Lemma sorted_without {A} (R : A -> A -> Prop) (l1 l2 : list A) (x : A) :
  StronglySorted R (l1 ++ x :: l2) -> StronglySorted R (l1 ++ l2).
Proof.
  induction l1 as [|a l1 IH]; cbn; intros H.
  - inversion H; assumption.
  - inversion H as [|? ? Hs Hall]; subst. constructor; [apply IH, Hs|].
    apply Forall_app in Hall as [H1 H2]. apply Forall_cons in H2 as [_ H2].
    apply Forall_app. split; assumption.
Qed.

Lemma sorted_snoc {A} (R : A -> A -> Prop) (l : list A) (y : A) :
  StronglySorted R l -> Forall (fun x => R x y) l -> StronglySorted R (l ++ [y]).
Proof.
  induction 1 as [|a l Hs IH Hall]; cbn; intros Hy.
  - constructor; constructor.
  - apply Forall_cons in Hy as [Hay Hy]. constructor; [apply IH, Hy|].
    apply Forall_app. split; [exact Hall|]. constructor; [exact Hay|constructor].
Qed.

Lemma sorted_NoDup {A} (R : A -> A -> Prop) (l : list A) :
  (forall x, ~ R x x) -> StronglySorted R l -> NoDup l.
Proof.
  intros Hirr. induction 1 as [|a l Hs IH Hall]; constructor; [|exact IH].
  intros Hin. rewrite Forall_forall in Hall. exact (Hirr a (Hall a Hin)).
Qed.

Lemma py_lt_irrefl (a : pyval) : ~ py_lt a a.
Proof. intros [i [j [-> [H Hlt]]]]. injection H as <-. lia. Qed.

(** ** The state kept by the operations *)

Lemma fresh_sound (path : string) : sound (fresh path).
Proof.
  exists 1. cbn. repeat split; try constructor. lia.
Qed.

Lemma api_task_completed (now : string) (task : Task.t) :
  api_task task -> api_task (Task.mark_completed now task).
Proof.
  intros [Hd [_ [Hp [Hc Hcd]]]]. unfold api_task. cbn.
  repeat split; try assumption. right. eauto.
Qed.

Lemma added_sound (now d p c : string) (n : Z) (self : t) :
  strip d <> "" ->
  next_id self = PInt n ->
  sound self ->
  sound (added now d p c n self).
Proof.
  intros Hd Hn [n' [Hn' [Hpos [Hids [Hasc Hshape]]]]].
  rewrite Hn in Hn'. injection Hn' as <-.
  exists (n + 1). cbn [added next_id tasks]. split; [reflexivity|].
  split; [lia|]. split; [|split].
  - apply Forall_app. split.
    + eapply Forall_impl; [exact Hids|]. cbn. intros x [k [Hk Hr]].
      exists k. split; [exact Hk|lia].
    + constructor; [|constructor]. exists n. cbn. split; [reflexivity|lia].
  - unfold ascending. rewrite List.map_app. cbn [map new_task Task.id].
    apply sorted_snoc; [exact Hasc|].
    apply Forall_forall. intros a Ha. apply list_elem_of_In in Ha.
    apply List.in_map_iff in Ha as [x [<- Hx]].
    rewrite Forall_forall in Hids. destruct (Hids x) as [k [Hk Hr]].
    { apply list_elem_of_In. exact Hx. }
    exists k, n. split; [exact Hk|]. split; [reflexivity|lia].
  - apply Forall_app. split; [exact Hshape|]. constructor; [|constructor].
    unfold api_task, new_task. cbn. repeat split; eauto.
    exists (strip d). split; [reflexivity|]. split; [exact Hd|apply strip_idempotent].
Qed.

Lemma same_description_returns (d : string) (task : Task.t) :
  api_task task -> exists b, same_description d task = Return b.
Proof.
  intros [[s [Hs _]] _]. unfold same_description. rewrite Hs. cbn. eauto.
Qed.

Lemma is_pending_match_returns (d : string) (task : Task.t) :
  api_task task -> exists b, is_pending_match d task = Return b.
Proof.
  intros H. destruct (same_description_returns d task H) as [b Hb].
  unfold is_pending_match. rewrite Hb. eauto.
Qed.

Lemma complete_first_returns (now d : string) (ts : list Task.t) :
  Forall api_task ts -> exists r, complete_first now d ts = Return r.
Proof.
  induction 1 as [|x ts Hx _ [r IH]]; cbn; [eauto|].
  destruct (is_pending_match_returns d x Hx) as [[|] Hb]; rewrite Hb; [eauto|].
  rewrite IH. cbn. eauto.
Qed.

Lemma pop_first_returns (d : string) (ts : list Task.t) :
  Forall api_task ts -> exists r, pop_first d ts = Return r.
Proof.
  induction 1 as [|x ts Hx _ [r IH]]; cbn; [eauto|].
  destruct (same_description_returns d x Hx) as [[|] Hb]; rewrite Hb; [eauto|].
  rewrite IH. cbn. eauto.
Qed.

Lemma find_first_returns (d : string) (ts : list Task.t) :
  Forall api_task ts -> exists r, find_first d ts = Return r.
Proof.
  induction 1 as [|x ts Hx _ [r IH]]; cbn; [eauto|].
  destruct (same_description_returns d x Hx) as [[|] Hb]; rewrite Hb; eauto.
Qed.

Lemma step_sound (o : op) (self : t) (fs : filesystem) :
  sound self ->
  sound (fst (snd (step o (self, fs))))
  /\ exists r, fst (step o (self, fs)) = Return r.
Proof.
  intros Hs. pose proof Hs as [n [Hn [Hpos [Hids [Hasc Hshape]]]]].
  destruct o; cbn [step returning fst snd query query_raising outcome_map];
    try (split; [exact Hs|]); eauto.
  - destruct (strip description) as [|a q] eqn:Hd.
    + rewrite add_task_blank by exact Hd. cbn. split; [exact Hs|eauto].
    + assert (Hne : strip description <> "") by (rewrite Hd; discriminate).
      rewrite (add_task_eq now description priority category self fs n Hne Hn).
      cbn. split; [apply added_sound; assumption|eauto].
  - rewrite mark_task_completed_eq.
    destruct (complete_first_returns now task_description _ Hshape) as [[ts|] Hr];
      rewrite Hr; cbn; [|split; [exact Hs|eauto]].
    split; [|eauto]. pose proof Hr as Hdec.
    apply complete_first_decompose in Hdec as [pre [x [post [Hts [-> _]]]]].
    exists n. cbn. split; [exact Hn|]. split; [exact Hpos|].
    split; [|split].
    + eapply complete_first_Forall; [|exact Hids|exact Hr]. intros y H; exact H.
    + unfold ascending in *. rewrite Hts in Hasc.
      rewrite List.map_app in *. exact Hasc.
    + eapply complete_first_Forall; [|exact Hshape|exact Hr].
      intros y; apply api_task_completed.
  - rewrite mark_task_completed_by_id_eq.
    destruct (complete_first_by_id now task_id (tasks self)) as [ts|] eqn:Hr;
      cbn; [|split; [exact Hs|eauto]].
    split; [|eauto]. pose proof Hr as Hdec.
    apply complete_first_by_id_decompose in Hdec as [pre [x [post [Hts [-> _]]]]].
    exists n. cbn. split; [exact Hn|]. split; [exact Hpos|].
    split; [|split].
    + eapply complete_first_by_id_Forall; [|exact Hids|exact Hr].
      intros y H; exact H.
    + unfold ascending in *. rewrite Hts in Hasc.
      rewrite List.map_app in *. exact Hasc.
    + eapply complete_first_by_id_Forall; [|exact Hshape|exact Hr].
      intros y; apply api_task_completed.
  - rewrite remove_task_eq.
    destruct (pop_first_returns task_description _ Hshape) as [[ts|] Hr];
      rewrite Hr; cbn; [|split; [exact Hs|eauto]].
    split; [|eauto]. pose proof Hr as Hdec.
    apply pop_first_decompose in Hdec as [pre [x [post [Hts [-> _]]]]].
    exists n. cbn. split; [exact Hn|]. split; [exact Hpos|].
    split; [|split].
    + eapply pop_first_Forall; [exact Hids|exact Hr].
    + unfold ascending in *. rewrite Hts in Hasc.
      rewrite List.map_app in *. cbn [map] in Hasc.
      eapply sorted_without. exact Hasc.
    + eapply pop_first_Forall; [exact Hshape|exact Hr].
  - rewrite clear_all_tasks_eq. cbn. split; [apply fresh_sound|eauto].
  - unfold get_task_by_description.
    destruct (find_first_returns description _ Hshape) as [r Hr]. rewrite Hr.
    cbn. eauto.
  - unfold contains_task. rewrite any_find_first.
    destruct (find_first_returns description _ Hshape) as [r Hr]. rewrite Hr.
    cbn. eauto.
Qed.

Lemma run_sound (ops : list op) (w : world) :
  sound (fst w) ->
  Forall (fun ev : event =>
            sound (fst (snd ev)) /\ exists r, snd (fst ev) = Return r)
    (run ops w).
Proof.
  revert w. induction ops as [|o ops IH]; intros [self fs] Hs; [constructor|].
  rewrite run_cons. destruct (step_sound o self fs Hs) as [Hs' Hr].
  constructor; [split; assumption|].
  apply IH. exact Hs'.
Qed.

(** X8. No call raises in a manager that was new once and has been used
    through its operations only: along every sequence of operations run
    from such a state, each call returns. *)
Theorem no_call_raises (ops : list op) (w : world) :
  sound (fst w) ->
  Forall (fun ev : event => exists r, snd (fst ev) = Return r) (run ops w).
Proof.
  intros Hs. eapply Forall_impl; [exact (run_sound ops w Hs)|].
  cbn. intros ev [_ H]. exact H.
Qed.

Lemma no_call_raises_witness :
  sound (fst (fresh "todo.json", empty_fs))
  /\ Forall (fun ev : event => exists r, snd (fst ev) = Return r)
       (run long_session (fresh "todo.json", empty_fs)).
Proof.
  assert (Hs : sound (fst (fresh "todo.json", empty_fs))) by apply fresh_sound.
  split; [exact Hs|].
  exact (no_call_raises long_session (fresh "todo.json", empty_fs) Hs).
Defined.

(** X9. The ids in the list are distinct.  Along every sequence of
    operations run from a new manager, [clear_all_tasks] included, the ids
    of the tasks in the list are positive integers below the counter that
    go up along the list, so no two tasks in the list share an id. *)
Theorem ids_in_list_distinct (ops : list op) (w : world) :
  sound (fst w) ->
  Forall (fun ev : event =>
            NoDup (map Task.id (tasks (fst (snd ev))))
            /\ ascending (tasks (fst (snd ev)))
            /\ exists n,
                 next_id (fst (snd ev)) = PInt n
                 /\ Forall (fun x => exists k, Task.id x = PInt k /\ 1 <= k < n)
                      (tasks (fst (snd ev))))
    (run ops w).
Proof.
  intros Hs. eapply Forall_impl; [exact (run_sound ops w Hs)|].
  cbn. intros ev [[n [Hn [_ [Hids [Hasc _]]]]] _].
  split; [|split; [exact Hasc|eauto]].
  eapply sorted_NoDup; [exact py_lt_irrefl|exact Hasc].
Qed.

Lemma ids_in_list_distinct_witness :
  sound (fst (fresh "todo.json", empty_fs))
  /\ Forall (fun ev : event => NoDup (map Task.id (tasks (fst (snd ev)))))
       (run long_session (fresh "todo.json", empty_fs)).
Proof.
  assert (Hs : sound (fst (fresh "todo.json", empty_fs))) by apply fresh_sound.
  split; [exact Hs|].
  eapply Forall_impl;
    [exact (ids_in_list_distinct long_session (fresh "todo.json", empty_fs) Hs)|].
  cbn. intros ev [H _]. exact H.
Defined.

(** X10. The tasks keep their shape.  Along every sequence of operations
    run from a new manager, every task in the list has a description that
    is a non-empty string without white space at either end; its status
    is "pending" with [completed_date] [None], or "completed" with a
    [completed_date] that is a string; priority, category and
    [created_date] are strings. *)
Theorem tasks_keep_shape (ops : list op) (w : world) :
  sound (fst w) ->
  Forall (fun ev : event =>
            Forall (fun task =>
                      api_task task
                      /\ exists s, Task.description task = PStr s /\ trimmed s)
              (tasks (fst (snd ev))))
    (run ops w).
Proof.
  intros Hs. eapply Forall_impl; [exact (run_sound ops w Hs)|].
  cbn. intros ev [[n [_ [_ [_ [_ Hshape]]]]] _].
  eapply Forall_impl; [exact Hshape|]. cbn. intros task Ht.
  split; [exact Ht|]. destruct Ht as [[s [Hs' [_ Hfix]]] _].
  exists s. split; [exact Hs'|]. rewrite <- Hfix. apply strip_trimmed.
Qed.

Lemma tasks_keep_shape_witness :
  sound (fst (fresh "todo.json", empty_fs))
  /\ Forall (fun ev : event => Forall api_task (tasks (fst (snd ev))))
       (run long_session (fresh "todo.json", empty_fs)).
Proof.
  assert (Hs : sound (fst (fresh "todo.json", empty_fs))) by apply fresh_sound.
  split; [exact Hs|].
  eapply Forall_impl;
    [exact (tasks_keep_shape long_session (fresh "todo.json", empty_fs) Hs)|].
  cbn. intros ev H. eapply Forall_impl; [exact H|]. cbn. intros task [Ht _]. exact Ht.
Defined.

(** ** Completing a task by id *)

Lemma complete_first_by_id_skip (now : string) (i : Z) (pre rest : list Task.t) :
  Forall (fun x => py_eq_int (Task.id x) i && is_pending x = false) pre ->
  complete_first_by_id now i (pre ++ rest)
  = option_map (app pre) (complete_first_by_id now i rest).
Proof.
  induction 1 as [|x pre Hx _ IH]; cbn.
  - destruct (complete_first_by_id now i rest); reflexivity.
  - rewrite Hx, IH. destruct (complete_first_by_id now i rest); reflexivity.
Qed.

Lemma complete_first_by_id_none (now : string) (i : Z) (ts : list Task.t) :
  Forall (fun x => py_eq_int (Task.id x) i && is_pending x = false) ts ->
  complete_first_by_id now i ts = None.
Proof.
  induction 1 as [|x ts Hx _ IH]; cbn; [reflexivity|].
  rewrite Hx, IH. reflexivity.
Qed.

Lemma later_ids_differ (i : Z) (task : Task.t) (post : list Task.t) :
  py_eq_int (Task.id task) i = true ->
  Forall (py_lt (Task.id task)) (map Task.id post) ->
  Forall (fun x => py_eq_int (Task.id x) i && is_pending x = false) post.
Proof.
  intros Hi Hall. induction post as [|y post IH]; [constructor|].
  cbn in Hall. apply Forall_cons in Hall as [[a [b [Ha [Hb Hlt]]]] Hall].
  constructor; [|apply IH, Hall].
  rewrite Ha in Hi. cbn in Hi. apply Z.eqb_eq in Hi. subst a.
  rewrite Hb. cbn. replace (b =? i) with false; [reflexivity|].
  symmetry. apply Z.eqb_neq. lia.
Qed.

(** X11. [mark_task_completed_by_id(i)] never raises.  It completes, in
    place, the first task in list order whose id equals [i] and that is
    pending, saves and returns [True]; when there is none it returns
    [False] and changes nothing.  When the ids go up along the list, a
    second call with the same id returns [False] and changes nothing. *)
Theorem mark_task_completed_by_id_first_pending (now : string) (i : Z)
    (self : t) (fs : filesystem) :
  (forall pre task post,
     tasks self = (pre ++ task :: post)%list ->
     Forall (fun x => py_eq_int (Task.id x) i && is_pending x = false) pre ->
     py_eq_int (Task.id task) i && is_pending task = true ->
     let done := Task.mark_completed now task in
     let self' := set_tasks (pre ++ done :: post) self in
     mark_task_completed_by_id now i (self, fs)
     = (Return true, (self', saved self' fs))
     /\ Task.id done = Task.id task
     /\ Task.status done = PStr "completed"
     /\ Task.completed_date done = PStr now
     /\ (forall now2,
           ascending (tasks self) ->
           mark_task_completed_by_id now2 i (self', saved self' fs)
           = (Return false, (self', saved self' fs))))
  /\ (Forall (fun x => py_eq_int (Task.id x) i && is_pending x = false) (tasks self) ->
      mark_task_completed_by_id now i (self, fs) = (Return false, (self, fs)))
  /\ (exists b, fst (mark_task_completed_by_id now i (self, fs)) = Return b).
Proof.
  split; [|split].
  - intros pre task post Hts Hpre Htask done self'.
    split; [|split; [reflexivity|split; [reflexivity|split; [reflexivity|]]]].
    + rewrite mark_task_completed_by_id_eq, Hts, complete_first_by_id_skip
        by exact Hpre.
      cbn. rewrite Htask. reflexivity.
    + intros now2 Hasc. rewrite mark_task_completed_by_id_eq.
      rewrite complete_first_by_id_none; [reflexivity|].
      cbn. apply Forall_app. split; [exact Hpre|].
      apply andb_true_iff in Htask as [Hid Hpend].
      constructor.
      * cbn. apply andb_false_r.
      * apply (later_ids_differ i task post Hid).
        unfold ascending in Hasc. rewrite Hts, List.map_app in Hasc. cbn in Hasc.
        clear - Hasc. induction pre as [|a pre IH]; cbn in Hasc.
        -- inversion Hasc; assumption.
        -- inversion Hasc; auto.
  - intros Hall.
    rewrite mark_task_completed_by_id_eq, complete_first_by_id_none by exact Hall.
    reflexivity.
  - rewrite mark_task_completed_by_id_eq.
    destruct (complete_first_by_id now i (tasks self)); cbn; eauto.
Qed.

Lemma mark_task_completed_by_id_first_pending_witness :
  mark_task_completed_by_id "2024-05-03 12:00:00" 2 (shopping, empty_fs)
  = (Return true,
     (set_tasks [eggs_task; Task.mark_completed "2024-05-03 12:00:00" milk_task] shopping,
      saved (set_tasks [eggs_task; Task.mark_completed "2024-05-03 12:00:00" milk_task]
               shopping) empty_fs)).
Proof.
  pose proof (mark_task_completed_by_id_first_pending "2024-05-03 12:00:00" 2
                shopping empty_fs) as [Hfirst _].
  specialize (Hfirst [eggs_task] milk_task [] eq_refl).
  cbv zeta in Hfirst. apply Hfirst.
  - constructor; [reflexivity|constructor].
  - reflexivity.
Defined.

(** ** The pending and the completed list *)

Lemma filter_sublist (f : Task.t -> bool) (l : list Task.t) :
  sublist (List.filter f l) l.
Proof.
  induction l as [|x l IH]; cbn; [constructor|].
  destruct (f x); [apply sublist_skip|apply sublist_cons]; exact IH.
Qed.

(** X12. [list_pending_tasks] and [list_completed_tasks] keep the order
    of the list; the first holds exactly the tasks whose status is
    "pending", the second exactly those whose status is "completed", so no
    task is in both, and a task with any other status (a file may hold
    one) is in neither.  When every status is one of the two, the two
    lists together are as long as the list. *)
Theorem pending_and_completed_lists (self : t) :
  sublist (list_pending_tasks self) (list_tasks self)
  /\ sublist (list_completed_tasks self) (list_tasks self)
  /\ (forall task,
        In task (list_pending_tasks self)
        <-> In task (list_tasks self) /\ Task.status task = PStr "pending")
  /\ (forall task,
        In task (list_completed_tasks self)
        <-> In task (list_tasks self) /\ Task.status task = PStr "completed")
  /\ (forall task,
        In task (list_pending_tasks self) -> ~ In task (list_completed_tasks self))
  /\ (length (list_pending_tasks self) + length (list_completed_tasks self)
      <= length (list_tasks self))%nat
  /\ (Forall (fun task => Task.status task = PStr "pending"
                          \/ Task.status task = PStr "completed") (tasks self) ->
      (length (list_pending_tasks self) + length (list_completed_tasks self)
       = length (list_tasks self))%nat).
Proof.
  assert (Hp : forall task, is_pending task = true <-> Task.status task = PStr "pending").
  { intros task. unfold is_pending, py_eq_str.
    destruct (Task.status task); try (split; discriminate).
    rewrite String.eqb_eq. split; congruence. }
  assert (Hc : forall task,
             is_completed task = true <-> Task.status task = PStr "completed").
  { intros task. unfold is_completed, py_eq_str.
    destruct (Task.status task); try (split; discriminate).
    rewrite String.eqb_eq. split; congruence. }
  unfold list_pending_tasks, list_completed_tasks, list_tasks.
  split; [apply filter_sublist|]. split; [apply filter_sublist|].
  split; [|split; [|split; [|split]]].
  - intros task. rewrite List.filter_In, Hp. reflexivity.
  - intros task. rewrite List.filter_In, Hc. reflexivity.
  - intros task. rewrite !List.filter_In, Hp, Hc. intros [_ H1] [_ H2]. congruence.
  - induction (tasks self) as [|x l IH]; cbn; [lia|].
    destruct (is_pending x) eqn:H1, (is_completed x) eqn:H2; cbn; try lia.
    apply Hp in H1. apply Hc in H2. congruence.
  - induction 1 as [|x l Hx _ IH]; cbn; [reflexivity|].
    destruct (is_pending x) eqn:H1, (is_completed x) eqn:H2; cbn; try lia.
    + apply Hp in H1. apply Hc in H2. congruence.
    + destruct Hx as [Hx|Hx]; [apply Hp in Hx|apply Hc in Hx]; congruence.
Qed.

(** X13. A completion moves the task from the pending list to the
    completed list and leaves the rest of both lists as it was: after a
    successful [mark_task_completed(d)] that completed [task], the pending
    list is the old one without [task] and the completed list is the old
    one with the completed task at its place in list order. *)
Theorem completion_moves_task (now d : string) (self : t) (fs : filesystem)
    (pre post : list Task.t) (task : Task.t) :
  tasks self = (pre ++ task :: post)%list ->
  Forall (fun x => is_pending_match d x = Return false) pre ->
  is_pending_match d task = Return true ->
  let self' := fst (snd (mark_task_completed now d (self, fs))) in
  list_pending_tasks self
  = (List.filter is_pending pre ++ task :: List.filter is_pending post)%list
  /\ list_pending_tasks self'
     = (List.filter is_pending pre ++ List.filter is_pending post)%list
  /\ list_completed_tasks self
     = (List.filter is_completed pre ++ List.filter is_completed post)%list
  /\ list_completed_tasks self'
     = (List.filter is_completed pre ++ Task.mark_completed now task
          :: List.filter is_completed post)%list
  /\ length (list_tasks self') = length (list_tasks self).
Proof.
  intros Hts Hpre Htask self'.
  assert (Hself' : self' = set_tasks (pre ++ Task.mark_completed now task :: post) self).
  { unfold self'. rewrite mark_task_completed_eq, Hts, complete_first_skip
      by exact Hpre.
    cbn. rewrite Htask. reflexivity. }
  assert (Hpend : is_pending task = true /\ is_completed task = false).
  { unfold is_pending_match in Htask.
    destruct (same_description d task) as [b|e]; [|discriminate].
    injection Htask as Htask. apply andb_true_iff in Htask as [_ Hp].
    split; [exact Hp|]. unfold is_pending, is_completed, py_eq_str in *.
    destruct (Task.status task); try discriminate.
    apply String.eqb_eq in Hp. subst. reflexivity. }
  destruct Hpend as [Hp Hc].
  rewrite Hself'. unfold list_pending_tasks, list_completed_tasks, list_tasks.
  cbn [tasks set_tasks]. rewrite Hts, !List.filter_app. cbn [List.filter].
  rewrite Hp, Hc.
  change (is_pending (Task.mark_completed now task)) with false.
  change (is_completed (Task.mark_completed now task)) with true.
  repeat split. rewrite !length_app. reflexivity.
Qed.

Lemma completion_moves_task_witness :
  list_pending_tasks
    (fst (snd (mark_task_completed "2024-05-03 12:00:00" "BUY milk"
                 (shopping, empty_fs))))
  = [eggs_task]
  /\ list_completed_tasks
       (fst (snd (mark_task_completed "2024-05-03 12:00:00" "BUY milk"
                    (shopping, empty_fs))))
     = [Task.mark_completed "2024-05-03 12:00:00" milk_task].
Proof.
  pose proof (completion_moves_task "2024-05-03 12:00:00" "BUY milk" shopping
                empty_fs [eggs_task] [] milk_task eq_refl) as H.
  cbv zeta in H. destruct H as [_ [Hp [_ [Hc _]]]].
  - constructor; [reflexivity|constructor].
  - reflexivity.
  - split; [exact Hp|exact Hc].
Defined.

(** ** Looking up after a change *)

Lemma find_first_snoc (q : string) (ts : list Task.t) (x : Task.t) :
  find_first q (ts ++ [x])
  = match find_first q ts with
    | Return None =>
        match same_description q x with
        | Return true => Return (Some x)
        | Return false => Return None
        | Raise e => Raise e
        end
    | r => r
    end.
Proof.
  induction ts as [|a ts IH]; cbn.
  - destruct (same_description q x) as [[|]|e]; reflexivity.
  - destruct (same_description q a) as [[|]|e]; [reflexivity|exact IH|reflexivity].
Qed.

(** X14. After a successful [add_task(d)], a lookup that found a task
    before finds the same one, and a lookup that found none finds the new
    task exactly when its query, lower-cased, equals the trimmed [d],
    lower-cased.  So the trimmed description is found whenever the lookup
    does not raise; [d] itself is found through the new task only if
    trimming does not change its lower-cased form, since lookups do not
    trim. *)
Theorem add_task_then_lookup (now d p c : string) (self : t) (fs : filesystem) (n : Z) :
  strip d <> "" ->
  next_id self = PInt n ->
  let self' := fst (snd (add_task now d p c (self, fs))) in
  let task := new_task now d p c n in
  (forall q,
     get_task_by_description q self'
     = match get_task_by_description q self with
       | Return None =>
           Return (if String.eqb (lower (strip d)) (lower q) then Some task else None)
       | r => r
       end)
  /\ (forall q,
        contains_task q self'
        = match contains_task q self with
          | Return false => Return (String.eqb (lower (strip d)) (lower q))
          | r => r
          end)
  /\ (forall b, contains_task (strip d) self = Return b ->
        contains_task (strip d) self' = Return true).
Proof.
  intros Hd Hn self' task.
  assert (Hself' : self' = added now d p c n self).
  { unfold self'. rewrite (add_task_eq now d p c self fs n Hd Hn). reflexivity. }
  assert (Hget : forall q,
             get_task_by_description q self'
             = match get_task_by_description q self with
               | Return None =>
                   Return (if String.eqb (lower (strip d)) (lower q)
                           then Some task else None)
               | r => r
               end).
  { intros q. rewrite Hself'. unfold get_task_by_description.
    cbn [added tasks]. rewrite find_first_snoc.
    destruct (find_first q (tasks self)) as [[x|]|e]; try reflexivity.
    unfold same_description. cbn.
    destruct (String.eqb (lower (strip d)) (lower q)); reflexivity. }
  assert (Hcon : forall q,
             contains_task q self'
             = match contains_task q self with
               | Return false => Return (String.eqb (lower (strip d)) (lower q))
               | r => r
               end).
  { intros q. unfold contains_task. rewrite !any_find_first.
    fold (get_task_by_description q self') (get_task_by_description q self).
    rewrite Hget. destruct (get_task_by_description q self) as [[x|]|e];
      try reflexivity.
    cbn. destruct (String.eqb (lower (strip d)) (lower q)); reflexivity. }
  split; [exact Hget|]. split; [exact Hcon|].
  intros b Hb. rewrite Hcon, Hb. destruct b; [reflexivity|].
  rewrite String.eqb_refl. reflexivity.
Qed.

Lemma add_task_then_lookup_witness :
  contains_task " buy BREAD" (fst (snd (add_task "2024-06-01 08:00:00" " buy BREAD"
                                          "low" "food" (shopping, empty_fs))))
  = Return false
  /\ contains_task "Buy Bread" (fst (snd (add_task "2024-06-01 08:00:00" " buy BREAD"
                                            "low" "food" (shopping, empty_fs))))
     = Return true.
Proof.
  pose proof (add_task_then_lookup "2024-06-01 08:00:00" " buy BREAD" "low" "food"
                shopping empty_fs 3) as H.
  cbv zeta in H. destruct H as [_ [Hcon _]]; [discriminate|reflexivity|].
  split; rewrite Hcon; reflexivity.
Defined.

(** X15. [remove_task(d)] removes one task only: the list gets one
    shorter, and afterwards [contains_task(d)] answers for the tasks that
    came after the removed one, so it is [False] when no later task has
    the description, and then a second [remove_task(d)] returns [False]
    and changes nothing. *)
Theorem remove_task_then_lookup (d : string) (self : t) (fs : filesystem)
    (pre post : list Task.t) (task : Task.t) :
  tasks self = (pre ++ task :: post)%list ->
  Forall (fun x => same_description d x = Return false) pre ->
  same_description d task = Return true ->
  let w' := snd (remove_task d (self, fs)) in
  S (length (tasks (fst w'))) = length (tasks self)
  /\ contains_task d (fst w') = any (same_description d) post
  /\ get_task_by_description d (fst w') = find_first d post
  /\ (Forall (fun x => same_description d x = Return false) post ->
      contains_task d (fst w') = Return false
      /\ remove_task d w' = (Return false, w')).
Proof.
  intros Hts Hpre Htask w'.
  assert (Hw' : w' = (set_tasks (pre ++ post) self,
                      saved (set_tasks (pre ++ post) self) fs)).
  { unfold w'. rewrite remove_task_eq, Hts, pop_first_skip by exact Hpre.
    cbn. rewrite Htask. reflexivity. }
  rewrite Hw'. cbn [fst snd tasks set_tasks].
  assert (Hfind : find_first d (pre ++ post) = find_first d post)
    by (apply find_first_skip; exact Hpre).
  split; [rewrite Hts, !length_app; cbn; lia|].
  split; [unfold contains_task; cbn; rewrite !any_find_first, Hfind; reflexivity|].
  split; [exact Hfind|].
  intros Hpost. split.
  - unfold contains_task. cbn. rewrite any_find_first, Hfind.
    clear - Hpost. induction Hpost as [|x l Hx _ IH]; cbn; [reflexivity|].
    rewrite Hx. exact IH.
  - rewrite remove_task_eq. cbn. rewrite pop_first_none; [reflexivity|].
    apply Forall_app. split; assumption.
Qed.

Lemma remove_task_then_lookup_witness :
  contains_task "buy EGGS" (fst (snd (remove_task "buy EGGS" (shopping, empty_fs))))
  = Return false
  /\ remove_task "buy EGGS" (snd (remove_task "buy EGGS" (shopping, empty_fs)))
     = (Return false, snd (remove_task "buy EGGS" (shopping, empty_fs))).
Proof.
  pose proof (remove_task_then_lookup "buy EGGS" shopping empty_fs [] [milk_task]
                eggs_task eq_refl) as H.
  cbv zeta in H. destruct H as [_ [_ [_ Hlast]]]; [constructor|reflexivity|].
  apply Hlast. constructor; [reflexivity|constructor].
Defined.

(** ** The empty manager *)

(** X16. [is_empty] is true exactly when the list is empty; it is true
    after [clear_all_tasks] and false after an [add_task] that returned
    [True].  On an empty manager the lists are empty, the lookups report
    nothing and the completions and the removal return [False]; none of
    them raises or writes. *)
Theorem empty_manager_calls (self : t) (fs : filesystem) :
  (is_empty self = true <-> list_tasks self = [])
  /\ is_empty (fst (snd (clear_all_tasks (self, fs)))) = true
  /\ (forall now d p c,
        fst (add_task now d p c (self, fs)) = Return true ->
        is_empty (fst (snd (add_task now d p c (self, fs)))) = false)
  /\ (is_empty self = true ->
      list_pending_tasks self = []
      /\ list_completed_tasks self = []
      /\ (forall d, contains_task d self = Return false)
      /\ (forall d, get_task_by_description d self = Return None)
      /\ (forall now d,
            mark_task_completed now d (self, fs) = (Return false, (self, fs)))
      /\ (forall now i,
            mark_task_completed_by_id now i (self, fs) = (Return false, (self, fs)))
      /\ (forall d, remove_task d (self, fs) = (Return false, (self, fs)))).
Proof.
  assert (Hiff : is_empty self = true <-> list_tasks self = []).
  { unfold is_empty, list_tasks. destruct (tasks self); cbn; split; congruence. }
  split; [exact Hiff|]. split; [rewrite clear_all_tasks_eq; reflexivity|].
  split.
  - intros now d p c. rewrite add_task_unfold.
    destruct (truthy (strip d)); [|discriminate].
    destruct (py_iadd1 (next_id self)); [|discriminate].
    intros _. unfold is_empty. cbn.
    destruct (tasks self); reflexivity.
  - intros He. apply Hiff in He. unfold list_tasks in He.
    unfold list_pending_tasks, list_completed_tasks, contains_task,
      get_task_by_description.
    rewrite He. repeat split.
    + intros now d. rewrite mark_task_completed_eq, He. reflexivity.
    + intros now i. rewrite mark_task_completed_by_id_eq, He. reflexivity.
    + intros d. rewrite remove_task_eq, He. reflexivity.
Qed.

(** ** The console program *)

Lemma good_emit (I : world -> Prop) (ms : list message) (r : outputs) :
  Forall fair_message ms -> good I r -> good I (emit ms r).
Proof.
  destruct r as [[out w] e]. intros Hms [HI [Hout Hend]].
  unfold good, emit. cbn. split; [exact HI|]. split; [|exact Hend].
  apply Forall_app. split; assumption.
Qed.

Lemma good_stop (I : world -> Prop) (ms : list message) (w : world) (e : ending) :
  Forall fair_message ms ->
  I w ->
  ((forall w0, I w0 -> sound (fst w0)) -> forall x, e <> Died x) ->
  good I (ms, w, e).
Proof. intros Hms HI He. unfold good. cbn. auto. Qed.

Lemma display_rows_returns (ts : list Task.t) :
  Forall api_task ts -> display_rows ts = Return tt.
Proof.
  induction 1 as [|x ts [_ [_ [[s Hp] _]]] _ IH]; cbn; [reflexivity|].
  unfold display_row. rewrite Hp. exact IH.
Qed.

Lemma display_tasks_returns (ts : list Task.t) (title : string) :
  Forall api_task ts -> exists m, display_tasks ts title = Return m
                                  /\ fair_message m.
Proof.
  intros H. pose proof (display_rows_returns ts H) as Hr.
  unfold display_tasks. destruct ts as [|x ts].
  - eexists. split; [reflexivity|exact I].
  - cbv beta iota. rewrite Hr. eexists. split; [reflexivity|exact I].
Qed.

Lemma display_tasks_fair (ts : list Task.t) (title : string) (m : message) :
  display_tasks ts title = Return m -> fair_message m.
Proof.
  unfold display_tasks. destruct ts as [|x ts].
  - intros H. injection H as <-. exact I.
  - destruct (display_rows (x :: ts)); [|discriminate].
    intros H. injection H as <-. exact I.
Qed.

Lemma filter_api (f : Task.t -> bool) (ts : list Task.t) :
  Forall api_task ts -> Forall api_task (List.filter f ts).
Proof.
  induction 1 as [|x ts Hx _ IH]; cbn; [constructor|].
  destruct (f x); [constructor; assumption|exact IH].
Qed.

Lemma sound_api (self : t) : sound self -> Forall api_task (tasks self).
Proof. intros [n [_ [_ [_ [_ H]]]]]. exact H. Qed.

Lemma sound_call_returns (o : op) (w : world) (e : exn) :
  sound (fst w) -> fst (step o w) <> Raise e.
Proof.
  destruct w as [self fs]. intros Hs H.
  destruct (step_sound o self fs Hs) as [_ [r Hr]]. congruence.
Qed.

Lemma truthy_true (s : string) : truthy s = true -> s <> "".
Proof. destruct s; [discriminate|]. intros _. discriminate. Qed.

Lemma add_task_trimmed_not_false (now d p c : string) (w w' : world) :
  truthy (strip d) = true ->
  add_task now d p c w <> (Return false, w').
Proof.
  intros Ht. destruct w as [self fs]. rewrite add_task_unfold, Ht.
  destruct (py_iadd1 (next_id self)); discriminate.
Qed.

Section MenuLoop.

Variable parse_int : string -> option Z.
Variable clock : nat -> string.
Variable I : world -> Prop.
Hypothesis I_step : forall o w, menu_call o -> I w -> I (snd (step o w)).

Lemma menu_loop_good_bounded (n : nat) :
  forall inputs turn w,
    (length inputs <= n)%nat ->
    I w ->
    good I (menu_loop parse_int clock inputs turn w).
Proof.
  induction n as [|n IH]; intros inputs turn w Hlen HI.
  - destruct inputs; [|cbn in Hlen; lia].
    apply good_stop; [repeat constructor|exact HI|discriminate].
  - destruct inputs as [|line rest];
      [apply good_stop; [repeat constructor|exact HI|discriminate]|].
    cbn [length] in Hlen. cbn [menu_loop].
    assert (Hrec : forall ms rest' turn' w',
               Forall fair_message ms ->
               (length rest' <= n)%nat ->
               I w' ->
               good I (emit ms (menu_loop parse_int clock rest' turn' w')))
      by (intros; apply good_emit; [assumption|apply IH; assumption]).
    assert (Hdisplay : forall ts title e,
               (forall w0, I w0 -> sound (fst w0)) ->
               (ts = list_tasks (fst w) \/ ts = list_pending_tasks (fst w)
                \/ ts = list_completed_tasks (fst w)) ->
               display_tasks ts title <> Raise e).
    { intros ts title e HIs Hts Hraise.
      assert (Hapi : Forall api_task ts).
      { pose proof (sound_api _ (HIs w HI)) as Hall.
        destruct Hts as [-> | [-> | ->]];
          [exact Hall|apply filter_api, Hall|apply filter_api, Hall]. }
      destruct (display_tasks_returns ts title Hapi) as [m [Hm _]]. congruence. }
    assert (Hcall : forall o e,
               (forall w0, I w0 -> sound (fst w0)) -> fst (step o w) <> Raise e)
      by (intros o e HIs; apply sound_call_returns, HIs, HI).
    destruct (String.eqb (strip line) "1").
    { destruct rest as [|line1 rest1];
        [apply good_stop; [repeat constructor|exact HI|discriminate]|].
      cbn [length] in Hlen.
      destruct (truthy (strip line1)) eqn:Ht; cbn [negb];
        [|apply Hrec; [repeat constructor|lia|exact HI]].
      destruct rest1 as [|line2 rest2];
        [apply good_stop; [repeat constructor|exact HI|discriminate]|].
      destruct rest2 as [|line3 rest3];
        [apply good_stop; [repeat constructor|exact HI|discriminate]|].
      cbn [length] in Hlen.
      set (d := strip line1) in *.
      set (p := if negb (known_priority (lower (strip line2)))
                then "medium" else lower (strip line2)).
      set (c := if negb (truthy (strip line3)) then "general" else strip line3).
      assert (Hd : d <> "" /\ strip d = d)
        by (split; [apply truthy_true, Ht|apply strip_idempotent]).
      assert (Hmenu : menu_call (AddTask (clock turn) d p c)).
      { destruct Hd as [Hd1 Hd2]. cbn. repeat split; try assumption.
        - unfold p. destruct (known_priority (lower (strip line2))) eqn:Hk;
            [exact Hk|reflexivity].
        - unfold c. destruct (truthy (strip line3)) eqn:Hc; cbn;
            [apply truthy_true, Hc|discriminate]. }
      pose proof (I_step _ w Hmenu HI) as HI'.
      pose proof (fun e HIs => Hcall (AddTask (clock turn) d p c) e HIs) as Hno.
      cbn [step returning fst snd] in HI', Hno.
      destruct (add_task (clock turn) d p c w) as [[[|]|e] w'] eqn:Hadd;
        cbn [fst snd outcome_map] in HI', Hno.
      - apply Hrec; [repeat constructor; apply Hd|lia|exact HI'].
      - exfalso. apply (add_task_trimmed_not_false (clock turn) d p c w w');
          [|exact Hadd].
        destruct Hd as [_ Hd2]. rewrite Hd2. exact Ht.
      - apply good_stop; [repeat constructor|exact HI'|].
        intros HIs x _. exact (Hno e HIs eq_refl). }
    destruct (String.eqb (strip line) "2").
    { destruct (display_tasks (list_tasks (fst w)) "All Tasks") as [m|e] eqn:Hm.
      - apply Hrec; [|lia|exact HI].
        constructor; [exact Logic.I|].
        constructor; [exact (display_tasks_fair _ _ _ Hm)|constructor].
      - apply good_stop; [repeat constructor|exact HI|].
        intros HIs x _. apply (Hdisplay _ "All Tasks" e HIs (or_introl eq_refl) Hm). }
    destruct (String.eqb (strip line) "3").
    { destruct (display_tasks (list_pending_tasks (fst w)) "Pending Tasks")
        as [m|e] eqn:Hm.
      - apply Hrec; [|lia|exact HI].
        constructor; [exact Logic.I|].
        constructor; [exact (display_tasks_fair _ _ _ Hm)|constructor].
      - apply good_stop; [repeat constructor|exact HI|].
        intros HIs x _.
        apply (Hdisplay _ "Pending Tasks" e HIs (or_intror (or_introl eq_refl)) Hm). }
    destruct (String.eqb (strip line) "4").
    { destruct (display_tasks (list_completed_tasks (fst w)) "Completed Tasks")
        as [m|e] eqn:Hm.
      - apply Hrec; [|lia|exact HI].
        constructor; [exact Logic.I|].
        constructor; [exact (display_tasks_fair _ _ _ Hm)|constructor].
      - apply good_stop; [repeat constructor|exact HI|].
        intros HIs x _.
        apply (Hdisplay _ "Completed Tasks" e HIs (or_intror (or_intror eq_refl)) Hm). }
    destruct (String.eqb (strip line) "5").
    { destruct (is_empty (fst w)); [apply Hrec; [repeat constructor|lia|exact HI]|].
      destruct (display_tasks (list_pending_tasks (fst w)) "Pending Tasks")
        as [m|e] eqn:Hm.
      2:{ apply good_stop; [repeat constructor|exact HI|].
          intros HIs x _.
          apply (Hdisplay _ "Pending Tasks" e HIs (or_intror (or_introl eq_refl)) Hm). }
      pose proof (display_tasks_fair _ _ _ Hm) as Hfair.
      destruct rest as [|line1 rest1];
        [apply good_stop; [repeat constructor; exact Hfair|exact HI|discriminate]|].
      destruct rest1 as [|line2 rest2];
        [apply good_stop; [repeat constructor; exact Hfair|exact HI|discriminate]|].
      cbn [length] in Hlen.
      destruct (String.eqb (strip line1) "2").
      - pose proof (I_step (MarkTaskCompleted (clock turn) (strip line2)) w Logic.I HI)
          as HI'.
        pose proof (fun e HIs =>
                      Hcall (MarkTaskCompleted (clock turn) (strip line2)) e HIs)
          as Hno.
        cbn [step returning fst snd] in HI', Hno.
        destruct (mark_task_completed (clock turn) (strip line2) w)
          as [[[|]|e] w'] eqn:Hmark; cbn [fst snd outcome_map] in HI', Hno.
        + apply Hrec; [repeat constructor; exact Hfair|lia|exact HI'].
        + apply Hrec; [repeat constructor; exact Hfair|lia|exact HI'].
        + apply good_stop; [repeat constructor; exact Hfair|exact HI'|].
          intros HIs x _. exact (Hno e HIs eq_refl).
      - destruct (parse_int line2) as [task_id|];
          [|apply Hrec; [repeat constructor; exact Hfair|lia|exact HI]].
        pose proof (I_step (MarkTaskCompletedById (clock turn) task_id) w Logic.I HI)
          as HI'.
        pose proof (fun e HIs =>
                      Hcall (MarkTaskCompletedById (clock turn) task_id) e HIs)
          as Hno.
        cbn [step returning fst snd] in HI', Hno.
        destruct (mark_task_completed_by_id (clock turn) task_id w)
          as [[[|]|e] w'] eqn:Hmark; cbn [fst snd outcome_map] in HI', Hno.
        + apply Hrec; [repeat constructor; exact Hfair|lia|exact HI'].
        + apply Hrec; [repeat constructor; exact Hfair|lia|exact HI'].
        + apply good_stop; [repeat constructor; exact Hfair|exact HI'|].
          intros HIs x _. exact (Hno e HIs eq_refl). }
    destruct (String.eqb (strip line) "6").
    { destruct (is_empty (fst w)); [apply Hrec; [repeat constructor|lia|exact HI]|].
      destruct (display_tasks (list_tasks (fst w)) "All Tasks") as [m|e] eqn:Hm.
      2:{ apply good_stop; [repeat constructor|exact HI|].
          intros HIs x _.
          apply (Hdisplay _ "All Tasks" e HIs (or_introl eq_refl) Hm). }
      pose proof (display_tasks_fair _ _ _ Hm) as Hfair.
      destruct rest as [|line1 rest1];
        [apply good_stop; [repeat constructor; exact Hfair|exact HI|discriminate]|].
      cbn [length] in Hlen.
      pose proof (I_step (RemoveTask (strip line1)) w Logic.I HI) as HI'.
      pose proof (fun e HIs => Hcall (RemoveTask (strip line1)) e HIs) as Hno.
      cbn [step returning fst snd] in HI', Hno.
      destruct (remove_task (strip line1) w) as [[[|]|e] w'] eqn:Hrem;
        cbn [fst snd outcome_map] in HI', Hno.
      - apply Hrec; [repeat constructor; exact Hfair|lia|exact HI'].
      - apply Hrec; [repeat constructor; exact Hfair|lia|exact HI'].
      - apply good_stop; [repeat constructor; exact Hfair|exact HI'|].
        intros HIs x _. exact (Hno e HIs eq_refl). }
    destruct (String.eqb (strip line) "7").
    { destruct (is_empty (fst w)); [apply Hrec; [repeat constructor|lia|exact HI]|].
      destruct rest as [|line1 rest1];
        [apply good_stop; [repeat constructor|exact HI|discriminate]|].
      cbn [length] in Hlen.
      destruct (String.eqb (lower (strip line1)) "y");
        [|apply Hrec; [repeat constructor|lia|exact HI]].
      pose proof (I_step ClearAllTasks w Logic.I HI) as HI'.
      pose proof (fun e HIs => Hcall ClearAllTasks e HIs) as Hno.
      cbn [step returning fst snd] in HI', Hno.
      destruct (clear_all_tasks w) as [[b|e] w'] eqn:Hclear;
        cbn [fst snd outcome_map] in HI', Hno.
      - apply Hrec; [repeat constructor|lia|exact HI'].
      - apply good_stop; [repeat constructor|exact HI'|].
        intros HIs x _. exact (Hno e HIs eq_refl). }
    destruct (String.eqb (strip line) "8").
    { apply good_stop; [repeat constructor|exact HI|discriminate]. }
    apply Hrec; [repeat constructor|lia|exact HI].
Qed.

Lemma menu_loop_good (inputs : list string) (turn : nat) (w : world) :
  I w -> good I (menu_loop parse_int clock inputs turn w).
Proof. apply (menu_loop_good_bounded (length inputs)). lia. Qed.

End MenuLoop.

(** X17. [main] never prints "Failed to add task!": the description it
    hands to [add_task] is trimmed and not empty, so [add_task] returns
    [True] or raises.  And each "Task ... added successfully!" names a
    description that is not empty and has no white space at either end.
    This holds for every input, every file and every reading of
    [int]. *)
Theorem main_never_fails_to_add (parse_int : string -> option Z)
    (clock : nat -> string) (inputs : list string) (fs : filesystem) :
  ~ In FailedToAdd (fst (fst (main parse_int clock inputs fs)))
  /\ (forall d, In (TaskAdded d) (fst (fst (main parse_int clock inputs fs))) ->
        d <> "" /\ trimmed d).
Proof.
  assert (Hfair : Forall fair_message (fst (fst (main parse_int clock inputs fs)))).
  { unfold main. destruct (init (clock 0%nat) "todo_data.json" fs) as [[self|e] fs'];
      [|constructor].
    apply (good_emit (fun _ => True)); [repeat constructor|].
    apply menu_loop_good; [intros; exact I|exact I]. }
  rewrite Forall_forall in Hfair. split.
  - intros Hin. apply list_elem_of_In in Hin. exact (Hfair _ Hin).
  - intros d Hin. apply list_elem_of_In in Hin. destruct (Hfair _ Hin) as [Hd Hfix].
    split; [exact Hd|]. rewrite <- Hfix. apply strip_trimmed.
Qed.




Lemma step_Forall (P : Task.t -> Prop) (o : op) (w : world) :
  (forall now x, P x -> P (Task.mark_completed now x)) ->
  (forall now d p c,
     o = AddTask now d p c ->
     P (Task.set_id (next_id (fst w))
          (Task.init now (PStr (strip d)) (PStr p) (PStr c)))) ->
  Forall P (tasks (fst w)) ->
  Forall P (tasks (fst (snd (step o w)))).
Proof.
  destruct w as [self fs]. cbn [fst]. intros Hmark Hadd Hall.
  destruct o; cbn [step returning fst snd query query_raising]; try exact Hall.
  - rewrite add_task_unfold. destruct (truthy (strip description)); [|exact Hall].
    assert (Happ : Forall P (tasks (appended now description priority category self))).
    { cbn. apply Forall_app. split; [exact Hall|].
      constructor; [|constructor]. apply (Hadd now description priority category).
      reflexivity. }
    destruct (py_iadd1 (next_id self)); exact Happ.
  - rewrite mark_task_completed_eq.
    destruct (complete_first now task_description (tasks self)) as [[ts|]|e] eqn:Hc;
      try exact Hall.
    exact (complete_first_Forall P _ _ _ _ (Hmark now) Hall Hc).
  - rewrite mark_task_completed_by_id_eq.
    destruct (complete_first_by_id now task_id (tasks self)) as [ts|] eqn:Hc;
      try exact Hall.
    exact (complete_first_by_id_Forall P _ _ _ _ (Hmark now) Hall Hc).
  - rewrite remove_task_eq.
    destruct (pop_first task_description (tasks self)) as [[ts|]|e] eqn:Hc;
      try exact Hall.
    exact (pop_first_Forall P _ _ _ Hall Hc).
  - rewrite clear_all_tasks_eq. constructor.
Qed.

Lemma known_priority_cases (p : string) :
  known_priority p = true -> p = "low" \/ p = "medium" \/ p = "high".
Proof.
  unfold known_priority. intros H.
  apply orb_true_iff in H as [H|H]; [apply orb_true_iff in H as [H|H]|];
    apply String.eqb_eq in H; auto.
Qed.

Lemma menu_task_step (o : op) (w : world) :
  menu_call o ->
  Forall menu_task (tasks (fst w)) ->
  Forall menu_task (tasks (fst (snd (step o w)))).
Proof.
  intros Hcall. apply step_Forall.
  - intros now x H. exact H.
  - intros now d p c ->. destruct Hcall as [_ [_ [Hp Hc]]].
    split; cbn.
    + destruct (known_priority_cases p Hp) as [-> | [-> | ->]]; auto.
    + eauto.
Qed.

(** X19. What the menu adds stays within the menu's values: if every
    task the manager starts with has a priority out of "low", "medium",
    "high" and a category that is a non-empty string (none, when there is
    no file), so has every task in the manager when [main] ends, whatever
    was typed as priority or category. *)
Theorem main_keeps_menu_values (parse_int : string -> option Z)
    (clock : nat -> string) (inputs : list string) (fs : filesystem) (self : t) :
  init (clock 0%nat) "todo_data.json" fs = (Return self, fs) ->
  Forall menu_task (tasks self) ->
  Forall menu_task (tasks (fst (snd (fst (main parse_int clock inputs fs))))).
Proof.
  intros Hinit Hall. unfold main. rewrite Hinit.
  pose proof (menu_loop_good parse_int clock
                (fun w => Forall menu_task (tasks (fst w))) menu_task_step
                inputs 1%nat (self, fs) Hall) as Hgood.
  apply (good_emit _ [Welcome]) in Hgood; [|repeat constructor].
  destruct Hgood as [Hfinal _]. exact Hfinal.
Qed.

Lemma main_keeps_menu_values_witness :
  init (noon 0%nat) "todo_data.json" empty_fs = (Return (fresh "todo_data.json"), empty_fs)
  /\ Forall menu_task (tasks (fresh "todo_data.json"))
  /\ Forall menu_task
       (tasks (fst (snd (fst (main plain_int noon typed_lines empty_fs))))).
Proof.
  assert (Hall : Forall menu_task (tasks (fresh "todo_data.json"))) by constructor.
  split; [reflexivity|]. split; [exact Hall|].
  apply (main_keeps_menu_values plain_int noon typed_lines empty_fs
           (fresh "todo_data.json") eq_refl Hall).
Defined.





(** ** The step that fills the list from a table *)

Lemma complete_first_new (now d : string) (acc : list Task.t) (task : Task.t) :
  Forall (fun x => is_pending_match d x = Return false) acc ->
  is_pending_match d task = Return true ->
  complete_first now d (acc ++ [task])%list
  = Return (Some (acc ++ [Task.mark_completed now task])%list).
Proof.
  intros Hacc Htask. rewrite complete_first_skip by exact Hacc.
  cbn. rewrite Htask. reflexivity.
Qed.

Lemma other_description_no_match (d s : string) (x : Task.t) :
  Task.description x = PStr s ->
  lower s <> lower d ->
  is_pending_match d x = Return false.
Proof.
  intros Hs Hne. unfold is_pending_match, same_description. rewrite Hs. cbn.
  apply String.eqb_neq in Hne. rewrite Hne. reflexivity.
Qed.

Lemma row_task_description (clock : nat -> string) (k : nat) (i : Z)
    (row : string * string) :
  Task.description (row_task clock k i row) = PStr (strip (fst row)).
Proof.
  unfold row_task. destruct (String.eqb (lower (snd row)) "completed"); reflexivity.
Qed.

Lemma add_rows_builds (clock : nat -> string) (rows : list (string * string)) :
  forall (k : nat) (i : Z) (self : t) (fs : filesystem),
    Forall (fun row => strip (fst row) = fst row /\ fst row <> "") rows ->
    NoDup (map (fun row => lower (fst row)) rows) ->
    next_id self = PInt (i + 1) ->
    Forall (fun x => exists s, Task.description x = PStr s
                               /\ ~ In (lower s) (map (fun row => lower (fst row)) rows))
      (tasks self) ->
    fst (add_rows clock k rows (self, fs)) = Return tt
    /\ fst (snd (add_rows clock k rows (self, fs)))
       = mk (data_file self) (tasks self ++ row_tasks clock k i rows)
           (PInt (i + 1 + Z.of_nat (length rows))).
Proof.
  induction rows as [|[d status] rows IH]; intros k i self fs Hrows Hnd Hn Hacc.
  - cbn. rewrite app_nil_r, Z.add_0_r, <- Hn. destruct self; split; reflexivity.
  - apply Forall_cons in Hrows as [[Hfix Hd] Hrows]. cbn [fst] in Hfix, Hd.
    cbn [map fst] in Hnd, Hacc. apply NoDup_cons in Hnd as [Hnotin Hnd].
    assert (Hsd : strip d <> "") by (rewrite Hfix; exact Hd).
    set (task := new_task (clock k) d "medium" "general" (i + 1)).
    assert (Hold : Forall (fun x => is_pending_match d x = Return false) (tasks self)).
    { eapply Forall_impl; [exact Hacc|]. cbn. intros x [s [Hs Hin]].
      apply (other_description_no_match d s x Hs). intros Heq. apply Hin.
      left. symmetry. exact Heq. }
    assert (Hnew : is_pending_match d task = Return true).
    { unfold is_pending_match, same_description, task, new_task. cbn.
      rewrite Hfix, String.eqb_refl. reflexivity. }
    assert (Hturn : exists fs2,
               add_rows clock k ((d, status) :: rows) (self, fs)
               = add_rows clock (S (S k)) rows
                   (mk (data_file self)
                       (tasks self ++ [row_task clock k i (d, status)])
                       (PInt (i + 1 + 1)),
                    fs2)).
    { cbn [add_rows]. unfold bind.
      rewrite (add_task_eq (clock k) d "medium" "general" self fs (i + 1) Hsd Hn).
      unfold row_task. cbn [fst snd]. fold task.
      destruct (String.eqb (lower status) "completed").
      - rewrite mark_task_completed_eq. cbn [tasks added]. fold task.
        rewrite (complete_first_new _ d _ task Hold Hnew).
        unfold ret. eexists. reflexivity.
      - unfold ret. eexists. reflexivity. }
    destruct Hturn as [fs2 Hturn]. rewrite Hturn.
    destruct (IH (S (S k)) (i + 1)
                (mk (data_file self) (tasks self ++ [row_task clock k i (d, status)])
                    (PInt (i + 1 + 1))) fs2 Hrows Hnd eq_refl) as [Hr Hs].
    + cbn [tasks]. apply Forall_app. split.
      * eapply Forall_impl; [exact Hacc|]. cbn. intros x [s [Hs Hin]].
        exists s. split; [exact Hs|]. intros Hin'. apply Hin. right. exact Hin'.
      * constructor; [|constructor]. exists d.
        split; [rewrite row_task_description; cbn [fst]; rewrite Hfix; reflexivity|].
        intros Hin. apply Hnotin. apply list_elem_of_In. exact Hin.
    + split; [exact Hr|]. rewrite Hs. cbn [data_file tasks length row_tasks].
      rewrite <- app_assoc. cbn [app]. f_equal. f_equal. lia.
Qed.

(** X21. The step "the to-do list contains tasks" builds the table: when
    the descriptions of the rows are trimmed, not empty and differ from
    one another when lower-cased, the step does not raise and leaves a
    list with one task per row in the order of the rows, with ids 1, 2,
    ..., the description of the row, and status "completed" for the rows
    whose status is "completed" in any case, "pending" for the others; so
    every description of the table is in the list, as the step "the output
    should contain all tasks" asserts. *)
Theorem given_contains_tasks_builds_table (clock : nat -> string)
    (rows : list (string * string)) (w : world) :
  Forall (fun row => strip (fst row) = fst row /\ fst row <> "") rows ->
  NoDup (map (fun row => lower (fst row)) rows) ->
  fst (given_contains_tasks clock rows w) = Return tt
  /\ fst (snd (given_contains_tasks clock rows w))
     = mk (data_file (fst w)) (row_tasks clock 0 0 rows)
         (PInt (1 + Z.of_nat (length rows)))
  /\ Forall (fun row =>
               Exists (fun task => Task.description task = PStr (fst row))
                 (list_tasks (fst (snd (given_contains_tasks clock rows w)))))
       rows.
Proof.
  intros Hrows Hnd. destruct w as [self fs].
  unfold given_contains_tasks, bind. rewrite clear_all_tasks_eq.
  destruct (add_rows_builds clock rows 0 0 (fresh (data_file self))
              (saved (fresh (data_file self)) fs) Hrows Hnd eq_refl)
    as [Hr Hs]; [constructor|].
  cbn [fst tasks fresh app data_file] in Hs |- *.
  split; [exact Hr|]. split; [exact Hs|].
  rewrite Hs. unfold list_tasks. cbn [tasks].
  clear Hr Hs Hnd. generalize 0%nat as k, 0 as i.
  induction Hrows as [|row rows [Hfix _] _ IH]; intros k i; [constructor|].
  constructor.
  - cbn [row_tasks]. apply Exists_cons_hd.
    rewrite row_task_description, Hfix. reflexivity.
  - eapply Forall_impl; [exact (IH (S (S k)) (i + 1))|].
    cbn. intros r H. apply Exists_cons_tl. exact H.
Qed.

Lemma given_contains_tasks_builds_table_witness :
  Forall (fun row => strip (fst row) = fst row /\ fst row <> "") table
  /\ NoDup (map (fun row => lower (fst row)) table)
  /\ fst (snd (given_contains_tasks noon table (shopping, empty_fs)))
     = mk "todo.json" (row_tasks noon 0 0 table) (PInt 4).
Proof.
  assert (Hrows : Forall (fun row => strip (fst row) = fst row /\ fst row <> "") table)
    by (repeat constructor; discriminate).
  assert (Hnd : NoDup (map (fun row => lower (fst row)) table)).
  { repeat constructor; rewrite ?elem_of_cons, ?elem_of_nil;
      intros H; repeat destruct H as [H|H]; try discriminate H; exact H. }
  split; [exact Hrows|]. split; [exact Hnd|].
  apply (given_contains_tasks_builds_table noon table (shopping, empty_fs) Hrows Hnd).
Defined.

(** ** Displaying, loading and saving again *)







(** ** The statements above on sample data *)

Lemma pending_and_completed_lists_witness :
  (length (list_pending_tasks shopping) + length (list_completed_tasks shopping)
   = length (list_tasks shopping))%nat.
Proof.
  pose proof (pending_and_completed_lists shopping) as [_ [_ [_ [_ [_ [_ Hsum]]]]]].
  apply Hsum. repeat constructor.
Defined.

Lemma empty_manager_calls_witness :
  remove_task "Buy milk" (fresh "todo.json", empty_fs)
  = (Return false, (fresh "todo.json", empty_fs))
  /\ contains_task "Buy milk" (fresh "todo.json") = Return false.
Proof.
  pose proof (empty_manager_calls (fresh "todo.json") empty_fs) as [_ [_ [_ Hempty]]].
  destruct (Hempty eq_refl) as [_ [_ [Hcontains [_ [_ [_ Hremove]]]]]].
  split; [apply Hremove|apply Hcontains].
Defined.


